(** * The rule-based diagnostic engine of the web analyzer

    A shallow embedding of [src/diagnostic-engine.js] (class
    [DiagnosticEngine]) together with the properties of its specification.

    Modelling conventions.

    - A JavaScript object read through [Object.entries] or a [for] loop is
      its list of own properties in enumeration order; keys are unique in
      such a list.  An object that is only indexed ([signals],
      [rules.next_steps]) is a finite map.
    - Numbers are integers ([Z]).  The integers of magnitude below 2^53
      are doubles on which [+], the comparisons and [===] are exact; the
      only inexact operations of the engine are the quotient and the
      product inside [Math.round((score / total) * 100)].
      [calculateResult] takes them as the exact rational operations;
      [calculateResult_binary64] rounds each of them to the nearest
      double, as the code does, and is the function that the statement
      on the percentages is about.
    - [console.warn] appends to a log that every function returns next to
      its result.
    - A JavaScript [TypeError] is the result [None].
    - A lookup [o[key]] is a lookup among the own properties of [o].
      It agrees with the code for every key that is not a member of
      [Object.prototype] ([toString], [constructor] and the like, listed
      in [Object_prototype]); the statements that quantify over keys
      which an object need not own say so.  The log holds the messages
      of [console.warn]; [console.log] and [console.error] are not
      modelled.
    - The stages are functions on the fields of the instance.  The three
      mutable fields are references, and the returned object shares
      their targets; the store that makes this explicit is introduced
      after [analyze]. *)

From Stdlib Require Import ZArith Lia Bool Ascii String List Sorted Permutation.
From stdpp Require Import base option numbers strings list gmap pretty.

Local Open Scope string_scope.
Local Open Scope list_scope.
Local Open Scope Z_scope.

(** ** Primitive values and their coercions *)

(** The values a signal can hold: [typeof] string, boolean or number, and
    [null].  A missing key ([undefined]) is a failed map lookup. *)
Inductive Value : Type :=
  | VNull
  | VBool (b : bool)
  | VNum (n : Z)
  | VStr (s : string).

Module JS.

(** White space that [StringToNumber] strips on both sides. *)
Definition is_white (c : ascii) : bool :=
  let n := nat_of_ascii c in
  ((9 <=? n) && (n <=? 13))%nat || (n =? 32)%nat.

Definition digit_of (c : ascii) : option Z :=
  let n := nat_of_ascii c in
  if ((48 <=? n) && (n <=? 57))%nat then Some (Z.of_nat n - 48) else None.

Fixpoint strip_left (s : string) : string :=
  match s with
  | String c s' => if is_white c then strip_left s' else s
  | EmptyString => EmptyString
  end.

Definition trim (s : string) : string :=
  String.rev (strip_left (String.rev (strip_left s))).

Fixpoint digits (s : string) (acc : Z) : option Z :=
  match s with
  | EmptyString => Some acc
  | String c s' =>
      match digit_of c with
      | Some d => digits s' (10 * acc + d)
      | None => None
      end
  end.

Definition unsigned_literal (s : string) : option Z :=
  match s with
  | EmptyString => None
  | _ => digits s 0
  end.

(** [StringToNumber] on the decimal integer literals: the empty (or
    blank) string is 0, an optionally signed digit sequence is its
    value, and [None] stands for [NaN].  A string that spells another
    number (a fraction, an exponent, a hexadecimal literal, [Infinity])
    denotes a double that is not an integer of the model; string signals
    are taken to be integer literals or text that is not numeric. *)
Definition StringToNumber (s : string) : option Z :=
  match trim s with
  | EmptyString => Some 0
  | String "+" r => unsigned_literal r
  | String "-" r => Z.opp <$> unsigned_literal r
  | t => unsigned_literal t
  end.

(** [ToNumber]; [None] is [NaN]. *)
Definition ToNumber (v : Value) : option Z :=
  match v with
  | VNull => Some 0
  | VBool b => Some (if b then 1 else 0)
  | VNum n => Some n
  | VStr s => StringToNumber s
  end.

(** [x === y]. *)
Definition strict_eq (x y : Value) : bool :=
  match x, y with
  | VNull, VNull => true
  | VBool a, VBool b => Bool.eqb a b
  | VNum a, VNum b => a =? b
  | VStr a, VStr b => String.eqb a b
  | _, _ => false
  end.

(** [x == y] (IsLooselyEqual): [null] equals only [null]; two strings
    compare as strings; every other pair compares after [ToNumber]. *)
Definition loose_eq (x y : Value) : bool :=
  match x, y with
  | VNull, VNull => true
  | VNull, _ | _, VNull => false
  | VStr a, VStr b => String.eqb a b
  | _, _ =>
      match ToNumber x, ToNumber y with
      | Some a, Some b => a =? b
      | _, _ => false
      end
  end.

(** [x < y] against a number: both sides go through [ToNumber] and the
    comparison is false as soon as one of them is [NaN]. *)
Definition lt (x : Value) (y : Z) : bool :=
  match ToNumber x with Some a => a <? y | None => false end.
Definition le (x : Value) (y : Z) : bool :=
  match ToNumber x with Some a => a <=? y | None => false end.
Definition gt (x : Value) (y : Z) : bool :=
  match ToNumber x with Some a => y <? a | None => false end.
Definition ge (x : Value) (y : Z) : bool :=
  match ToNumber x with Some a => y <=? a | None => false end.

(** [Math.round(num / den)]: the nearest integer, a tie going towards
    plus infinity, that is [floor (num / den + 1/2)]. *)
Definition Math_round (num den : Z) : Z := (2 * num + den) / (2 * den).

End JS.

(** ** Binary64 arithmetic *)

(** The doubles that [(score / total) * 100] goes through.  A finite
    double is the fraction [(n, d)] of its value, [d] a power of two.
    [/] and [*] return the double nearest to the exact result, a tie
    going to the even significand (IEEE 754, round to nearest even), with
    53 significant bits.  The exponent is not bounded: a quotient of two
    integers below 2^53 and its product with 100 are far from overflow
    and from the subnormal range. *)
Module Double.

(** The power [2^e] as a fraction, for any integer [e]. *)
Definition pow2 (e : Z) : Z * Z :=
  if 0 <=? e then (2 ^ e, 1) else (1, 2 ^ (- e)).

(** The integer nearest to [num / den] for [den > 0], a tie going to the
    even one. *)
Definition nearest_even (num den : Z) : Z :=
  let q := num / den in
  let r := num mod den in
  if 2 * r <? den then q
  else if den <? 2 * r then q + 1
  else if Z.even q then q else q + 1.

(** The exponent [e] of the last significant bit of [num / den], for
    [num, den > 0]: the one with [2^52 <= (num / den) / 2^e < 2^53].  The
    binary logarithms give the exponent of the quotient up to one, and
    the comparison decides. *)
Definition exponent (num den : Z) : Z :=
  let k := Z.log2 num - Z.log2 den in
  (if den * fst (pow2 k) <=? num * snd (pow2 k) then k else k - 1) - 52.

(** The double nearest to [num / den], for [den > 0]. *)
Definition round (num den : Z) : Z * Z :=
  if num =? 0 then (0, 1)
  else
    let e := exponent (Z.abs num) den in
    (Z.sgn num * nearest_even (Z.abs num * snd (pow2 e)) (den * fst (pow2 e))
     * fst (pow2 e),
     snd (pow2 e)).

(** [x / y] for two integers, [y] not 0. *)
Definition div (x y : Z) : Z * Z := round (x * Z.sgn y) (Z.abs y).

(** [x * c] for a double [x] and an integer [c]. *)
Definition mul (x : Z * Z) (c : Z) : Z * Z := round (fst x * c) (snd x).

(** [Math.round(x)]: exact on a double. *)
Definition Math_round (x : Z * Z) : Z := JS.Math_round (fst x) (snd x).

(** [Math.round((score / total) * 100)]. *)
Definition percent (score total : Z) : Z := Math_round (mul (div score total) 100).

End Double.

(** ** Objects as ordered property lists *)

Module Obj.
Section Obj.
Context {V : Type}.

(** [o[k]]; [None] is [undefined]. *)
Fixpoint get (k : string) (o : list (string * V)) : option V :=
  match o with
  | [] => None
  | (k', v) :: o' => if String.eqb k k' then Some v else get k o'
  end.

(** In-place update of the property [k]; the order of the keys is
    kept and an absent key is not created. *)
Definition alter (f : V -> V) (k : string) (o : list (string * V))
  : list (string * V) :=
  List.map (fun p => if String.eqb k (fst p) then (fst p, f (snd p)) else p) o.

Definition keys (o : list (string * V)) : list string := List.map fst o.
End Obj.
End Obj.

(** The members of [Object.prototype]: the names at which [o[key]] is
    defined although [o] has no such property of its own. *)
Definition Object_prototype : list string :=
  [ "constructor"; "hasOwnProperty"; "isPrototypeOf"; "propertyIsEnumerable";
    "toLocaleString"; "toString"; "valueOf"; "__proto__";
    "__defineGetter__"; "__defineSetter__";
    "__lookupGetter__"; "__lookupSetter__" ].

(** ** The console *)

(** A computation that may call [console.warn]: its value and the
    messages it printed, oldest first. *)
Definition Console (A : Type) : Type := (A * list string)%type.

Definition ret {A} (a : A) : Console A := (a, []).
Definition bind {A B} (m : Console A) (k : A -> Console B) : Console B :=
  let (b, w) := k (fst m) in (b, snd m ++ w).
Definition console_warn (msg : string) : Console unit := (tt, [msg]).

Notation "'let*' x ':=' m 'in' k" := (bind m (fun x => k))
  (at level 10, x name, m at level 100, k at level 200).

Fixpoint foldM {A S} (f : S -> A -> Console S) (l : list A) (s : S) : Console S :=
  match l with
  | [] => ret s
  | a :: l' => let* s' := f s a in foldM f l' s'
  end.

(** ** Data model *)

(** A condition of a trigger: a scalar literal ([typeof] string, boolean
    or number) or an object from operator symbol to numeric threshold,
    its entries in the order of [Object.entries]. *)
Inductive Condition : Type :=
  | CString (s : string)
  | CBoolean (b : bool)
  | CNumber (n : Z)
  | COperators (operators : list (string * Z)).

(** [rule.if]. *)
Definition Trigger : Type := list (string * Condition).

Abbreviation Signals := (gmap string Value).

Record EliminationRule : Type := {
  er_id : string;
  er_if : Trigger;
  er_eliminate : list string;
  er_explanation : string
}.

Record ScoringRule : Type := {
  sr_id : string;
  sr_if : Trigger;
  sr_then : list (string * Z);
  sr_explanation : string
}.

(** The rule-set document: [hypotheses] maps a name to [{score}]. *)
Record RuleSet : Type := {
  rs_hypotheses : list (string * Z);
  elimination_rules : list EliminationRule;
  rules : list ScoringRule;
  rs_next_steps : gmap string (list string)
}.

(** An entry of the per-analysis snapshot [this.hypotheses]; the field
    [eliminated] is absent (falsy) until an elimination rule sets it. *)
Record HypothesisData : Type := {
  score : Z;
  eliminated : bool
}.

Inductive RuleType : Type := elimination | scoring.

Record AppliedRule : Type := {
  ar_id : string;
  ar_type : RuleType;
  ar_explanation : string;
  ar_scores : option (list (string * Z))
}.

(** An entry of [normalizedHypotheses]. *)
Record Normalized : Type := {
  name : string;
  n_score : Z;
  n_confidence_percent : Z
}.

Record DiagnosticResult : Type := {
  primary_cause : string;
  confidence_percent : Z;
  confidence_level : string;
  raw_score : option Z;
  evidence : list string;
  eliminated_causes : list string;
  next_steps : list string;
  all_hypotheses : option (list Normalized);
  all_scores : list (string * HypothesisData);
  applied_rules : list AppliedRule
}.

(** The fields of a [DiagnosticEngine] instance. *)
Record Engine : Type := {
  this_rules : RuleSet;
  hypotheses : list (string * HypothesisData);
  eliminatedCauses : list string;
  appliedRules : list AppliedRule
}.

(** ** Condition evaluation *)

(** The literal of a scalar condition; [None] for an operator set. *)
Definition scalar_value (condition : Condition) : option Value :=
  match condition with
  | CString s => Some (VStr s)
  | CBoolean b => Some (VBool b)
  | CNumber n => Some (VNum n)
  | COperators _ => None
  end.

(** The operator symbols that have a [case] in [evaluateOperators]. *)
Definition recognised (operator : string) : bool :=
  existsb (String.eqb operator) [">"; ">="; "<"; "<="; "=="; "!="].

(** One [case] of the [switch] of [evaluateOperators]: whether the
    comparison holds, or [None] in the [default] case. *)
Definition compare (value : Value) (operator : string) (threshold : Z)
  : option bool :=
  if String.eqb operator ">" then Some (JS.gt value threshold)
  else if String.eqb operator ">=" then Some (JS.ge value threshold)
  else if String.eqb operator "<" then Some (JS.lt value threshold)
  else if String.eqb operator "<=" then Some (JS.le value threshold)
  else if String.eqb operator "==" then Some (JS.loose_eq value (VNum threshold))
  else if String.eqb operator "!=" then Some (negb (JS.loose_eq value (VNum threshold)))
  else None.

Fixpoint evaluateOperators (value : Value) (operators : list (string * Z))
  : Console bool :=
  match operators with
  | [] => ret true
  | (operator, threshold) :: rest =>
      match compare value operator threshold with
      | Some true => evaluateOperators value rest
      | Some false => ret false
      | None =>
          let* _ := console_warn ("Unknown operator: " +:+ operator) in
          ret false
      end
  end.

Fixpoint evaluateConditions (conditions : Trigger) (signals : Signals)
  : Console bool :=
  match conditions with
  | [] => ret true
  | (key, condition) :: rest =>
      match signals !! key with
      | None | Some VNull => ret false
      | Some signalValue =>
          match condition with
          | CString s =>
              if negb (JS.strict_eq signalValue (VStr s)) then ret false
              else evaluateConditions rest signals
          | CBoolean b =>
              if negb (JS.strict_eq signalValue (VBool b)) then ret false
              else evaluateConditions rest signals
          | CNumber n =>
              if negb (JS.strict_eq signalValue (VNum n)) then ret false
              else evaluateConditions rest signals
          | COperators operators =>
              let* ok := evaluateOperators signalValue operators in
              if negb ok then ret false
              else evaluateConditions rest signals
          end
      end
  end.

(** ** The engine *)

(** [JSON.parse(JSON.stringify(rules.hypotheses))]: a fresh object with
    the same keys in the same order. *)
Definition deep_copy (declared : list (string * Z))
  : list (string * HypothesisData) :=
  List.map (fun p => (fst p, {| score := snd p; eliminated := false |})) declared.

(** [new DiagnosticEngine(rules)]. *)
Definition new (rules : RuleSet) : Engine :=
  {| this_rules := rules;
     hypotheses := deep_copy (rs_hypotheses rules);
     eliminatedCauses := [];
     appliedRules := [] |}.

(** The "Reset state" assignments at the head of [analyze]. *)
Definition reset (e : Engine) : Engine :=
  {| this_rules := this_rules e;
     hypotheses := deep_copy (rs_hypotheses (this_rules e));
     eliminatedCauses := [];
     appliedRules := [] |}.

Definition push_applied (r : AppliedRule) (e : Engine) : Engine :=
  {| this_rules := this_rules e;
     hypotheses := hypotheses e;
     eliminatedCauses := eliminatedCauses e;
     appliedRules := appliedRules e ++ [r] |}.

Definition includes (l : list string) (x : string) : bool :=
  existsb (String.eqb x) l.

(** Body of the inner loop of [applyEliminationRules]. *)
Definition eliminate (e : Engine) (hypothesis : string) : Engine :=
  match Obj.get hypothesis (hypotheses e) with
  | Some _ =>
      {| this_rules := this_rules e;
         hypotheses :=
           Obj.alter (fun _ => {| score := 0; eliminated := true |})
             hypothesis (hypotheses e);
         eliminatedCauses :=
           if includes (eliminatedCauses e) hypothesis then eliminatedCauses e
           else eliminatedCauses e ++ [hypothesis];
         appliedRules := appliedRules e |}
  | None => e
  end.

(** Body of the outer loop of [applyEliminationRules]. *)
Definition applyEliminationRule (signals : Signals) (e : Engine)
  (rule : EliminationRule) : Console Engine :=
  let* matched := evaluateConditions (er_if rule) signals in
  if matched then
    ret (push_applied
           {| ar_id := er_id rule; ar_type := elimination;
              ar_explanation := er_explanation rule; ar_scores := None |}
           (fold_left eliminate (er_eliminate rule) e))
  else ret e.

Definition applyEliminationRules (signals : Signals) (e : Engine)
  : Console Engine :=
  foldM (applyEliminationRule signals) (elimination_rules (this_rules e)) e.

(** [score += scoreChange] followed by the floor at 0. *)
Definition add_score (scoreChange : Z) (data : HypothesisData) : HypothesisData :=
  let s := score data + scoreChange in
  {| score := if s <? 0 then 0 else s; eliminated := eliminated data |}.

(** Body of the inner loop of [applyScoringRules]. *)
Definition applyScore (e : Engine) (entry : string * Z) : Engine :=
  let (hypothesis, scoreChange) := entry in
  match Obj.get hypothesis (hypotheses e) with
  | Some data =>
      if eliminated data then e
      else
        {| this_rules := this_rules e;
           hypotheses := Obj.alter (add_score scoreChange) hypothesis (hypotheses e);
           eliminatedCauses := eliminatedCauses e;
           appliedRules := appliedRules e |}
  | None => e
  end.

(** Body of the outer loop of [applyScoringRules]. *)
Definition applyScoringRule (signals : Signals) (e : Engine)
  (rule : ScoringRule) : Console Engine :=
  let* matched := evaluateConditions (sr_if rule) signals in
  if matched then
    ret (push_applied
           {| ar_id := sr_id rule; ar_type := scoring;
              ar_explanation := sr_explanation rule;
              ar_scores := Some (sr_then rule) |}
           (fold_left applyScore (sr_then rule) e))
  else ret e.

Definition applyScoringRules (signals : Signals) (e : Engine)
  : Console Engine :=
  foldM (applyScoringRule signals) (rules (this_rules e)) e.

(** ** Result calculation *)

(** [Object.entries(this.hypotheses).filter(..).map(..)]: name and score
    of the hypotheses that are not eliminated, in key order. *)
Definition activeHypotheses (hyps : list (string * HypothesisData))
  : list (string * Z) :=
  List.map (fun p => (fst p, score (snd p)))
    (List.filter (fun p => negb (eliminated (snd p))) hyps).

Definition totalScore (active : list (string * Z)) : Z :=
  fold_left (fun sum h => sum + snd h) active 0.

(** One entry of [normalizedHypotheses], with the quotient and the
    product of [(h.score / totalScore) * 100] taken exactly;
    [normalize_binary64] below takes them in binary64. *)
Definition normalize (total : Z) (h : string * Z) : Normalized :=
  {| name := fst h;
     n_score := snd h;
     n_confidence_percent := JS.Math_round (snd h * 100) total |}.

(** [Array.prototype.sort] with the comparator
    [(a, b) => b.confidence_percent - a.confidence_percent].  The sort is
    stable; a stable sort has one possible outcome, which this insertion
    sort computes: [a] is put in front of the first entry that does not
    have a larger percentage. *)
Fixpoint insert_by_confidence (a : Normalized) (l : list Normalized)
  : list Normalized :=
  match l with
  | [] => [a]
  | b :: l' =>
      if n_confidence_percent a <? n_confidence_percent b
      then b :: insert_by_confidence a l'
      else a :: l
  end.

Fixpoint sort_by_confidence (l : list Normalized) : list Normalized :=
  match l with
  | [] => []
  | a :: l' => insert_by_confidence a (sort_by_confidence l')
  end.

Definition is_scoring (r : AppliedRule) : bool :=
  match ar_type r with scoring => true | elimination => false end.

Definition evidence_of (applied : list AppliedRule) : list string :=
  List.map ar_explanation (List.filter is_scoring applied).

Definition level_of (percent : Z) : string :=
  if 65 <=? percent then "High"
  else if 40 <=? percent then "Medium"
  else "Low".

Definition calculateResult (e : Engine) : option DiagnosticResult :=
  let active := activeHypotheses (hypotheses e) in
  let total := totalScore active in
  if total =? 0 then
    Some {| primary_cause := "unknown";
            confidence_percent := 0;
            confidence_level := "Low";
            raw_score := None;
            evidence := evidence_of (appliedRules e);
            eliminated_causes := eliminatedCauses e;
            next_steps := ["Collect more diagnostic data"; "Run additional tests"];
            all_hypotheses := None;
            all_scores := hypotheses e;
            applied_rules := appliedRules e |}
  else
    let normalizedHypotheses :=
      sort_by_confidence (List.map (normalize total) active) in
    match normalizedHypotheses with
    | [] => None
    | primaryCause :: _ =>
        Some {| primary_cause := name primaryCause;
                confidence_percent := n_confidence_percent primaryCause;
                confidence_level := level_of (n_confidence_percent primaryCause);
                raw_score := Some (n_score primaryCause);
                evidence := evidence_of (appliedRules e);
                eliminated_causes := eliminatedCauses e;
                next_steps :=
                  default ["Review system logs";
                           "Run additional diagnostics";
                           "Contact support if issue persists"]
                    (rs_next_steps (this_rules e) !! name primaryCause);
                all_hypotheses := Some normalizedHypotheses;
                all_scores := hypotheses e;
                applied_rules := appliedRules e |}
    end.

(** [analyze(signals)]: the result, and the instance after the call. *)
Definition analyze (e : Engine) (signals : Signals)
  : Console (option DiagnosticResult * Engine) :=
  let e0 := reset e in
  let* e1 := applyEliminationRules signals e0 in
  let* e2 := applyScoringRules signals e1 in
  ret (calculateResult e2, e2).

(** ** The result with the percentages in binary64 *)

(** [calculateResult] with [Math.round((h.score / totalScore) * 100)]
    computed as the code computes it: the quotient rounded to a double,
    its product with 100 rounded to a double, and [Math.round] of that.
    Everything else is as in [calculateResult]. *)
Definition normalize_binary64 (total : Z) (h : string * Z) : Normalized :=
  {| name := fst h;
     n_score := snd h;
     n_confidence_percent := Double.percent (snd h) total |}.

Definition calculateResult_binary64 (e : Engine) : option DiagnosticResult :=
  let active := activeHypotheses (hypotheses e) in
  let total := totalScore active in
  if total =? 0 then
    Some {| primary_cause := "unknown";
            confidence_percent := 0;
            confidence_level := "Low";
            raw_score := None;
            evidence := evidence_of (appliedRules e);
            eliminated_causes := eliminatedCauses e;
            next_steps := ["Collect more diagnostic data"; "Run additional tests"];
            all_hypotheses := None;
            all_scores := hypotheses e;
            applied_rules := appliedRules e |}
  else
    let normalizedHypotheses :=
      sort_by_confidence (List.map (normalize_binary64 total) active) in
    match normalizedHypotheses with
    | [] => None
    | primaryCause :: _ =>
        Some {| primary_cause := name primaryCause;
                confidence_percent := n_confidence_percent primaryCause;
                confidence_level := level_of (n_confidence_percent primaryCause);
                raw_score := Some (n_score primaryCause);
                evidence := evidence_of (appliedRules e);
                eliminated_causes := eliminatedCauses e;
                next_steps :=
                  default ["Review system logs";
                           "Run additional diagnostics";
                           "Contact support if issue persists"]
                    (rs_next_steps (this_rules e) !! name primaryCause);
                all_hypotheses := Some normalizedHypotheses;
                all_scores := hypotheses e;
                applied_rules := appliedRules e |}
    end.

Definition analyze_binary64 (e : Engine) (signals : Signals)
  : Console (option DiagnosticResult * Engine) :=
  let e0 := reset e in
  let* e1 := applyEliminationRules signals e0 in
  let* e2 := applyScoringRules signals e1 in
  ret (calculateResult_binary64 e2, e2).

(** ** Instances in the store *)

(** The fields [hypotheses], [eliminatedCauses] and [appliedRules] of an
    instance are references, and the object that [calculateResult]
    returns shares their targets ([all_scores: this.hypotheses],
    [eliminated_causes: this.eliminatedCauses],
    [applied_rules: this.appliedRules]).  The store lists these objects by
    address; a new object gets the next address. *)
Inductive Object : Type :=
  | OSnapshot (hyps : list (string * HypothesisData))
  | ONames (names : list string)
  | OApplied (records : list AppliedRule).

Record Instance : Type := {
  i_rules : RuleSet;
  i_hypotheses : nat;
  i_eliminatedCauses : nat;
  i_appliedRules : nat
}.

(** A returned result: its own fields, and the addresses of the three
    objects that it shares with the instance. *)
Record Returned : Type := {
  own : DiagnosticResult;
  all_scores_at : nat;
  eliminated_causes_at : nat;
  applied_rules_at : nat
}.

Definition snapshot_at (store : list Object) (a : nat)
  : list (string * HypothesisData) :=
  match store !! a with Some (OSnapshot hyps) => hyps | _ => [] end.

Definition names_at (store : list Object) (a : nat) : list string :=
  match store !! a with Some (ONames names) => names | _ => [] end.

Definition applied_at (store : list Object) (a : nat) : list AppliedRule :=
  match store !! a with Some (OApplied records) => records | _ => [] end.

(** The fields of an instance as the store has them. *)
Definition contents (i : Instance) (store : list Object) : Engine :=
  {| this_rules := i_rules i;
     hypotheses := snapshot_at store (i_hypotheses i);
     eliminatedCauses := names_at store (i_eliminatedCauses i);
     appliedRules := applied_at store (i_appliedRules i) |}.

(** The writes of a stage go to the objects of the instance. *)
Definition commit (i : Instance) (e : Engine) (store : list Object)
  : list Object :=
  <[i_hypotheses i := OSnapshot (hypotheses e)]>
    (<[i_eliminatedCauses i := ONames (eliminatedCauses e)]>
       (<[i_appliedRules i := OApplied (appliedRules e)]> store)).

Definition in_place (stage : Engine -> Console Engine) (i : Instance)
  (store : list Object) : Console (list Object) :=
  let* e := stage (contents i store) in
  ret (commit i e store).

(** What a holder of the returned object reads in a given store. *)
Definition observe (store : list Object) (r : Returned) : DiagnosticResult :=
  {| primary_cause := primary_cause (own r);
     confidence_percent := confidence_percent (own r);
     confidence_level := confidence_level (own r);
     raw_score := raw_score (own r);
     evidence := evidence (own r);
     eliminated_causes := names_at store (eliminated_causes_at r);
     next_steps := next_steps (own r);
     all_hypotheses := all_hypotheses (own r);
     all_scores := snapshot_at store (all_scores_at r);
     applied_rules := applied_at store (applied_rules_at r) |}.

(** [analyze] on an instance: the "Reset state" assignments bind the
    three fields to new objects (the copy made by [JSON.parse] and two
    array literals), the stages mutate these, and the result refers to
    them. *)
Definition analyze_in_store (i : Instance) (signals : Signals)
  (store : list Object) : Console (option Returned * Instance * list Object) :=
  let a := length store in
  let i' := {| i_rules := i_rules i;
               i_hypotheses := a;
               i_eliminatedCauses := S a;
               i_appliedRules := S (S a) |} in
  let store0 :=
    store ++ [OSnapshot (deep_copy (rs_hypotheses (i_rules i)));
              ONames []; OApplied []] in
  let* store1 := in_place (applyEliminationRules signals) i' store0 in
  let* store2 := in_place (applyScoringRules signals) i' store1 in
  ret (option_map
         (fun r => {| own := r;
                      all_scores_at := i_hypotheses i';
                      eliminated_causes_at := i_eliminatedCauses i';
                      applied_rules_at := i_appliedRules i' |})
         (calculateResult (contents i' store2)),
       i', store2).

(** ** Sample rule sets and signals *)

Definition no_rules (declared : list (string * Z)) : RuleSet :=
  {| rs_hypotheses := declared;
     elimination_rules := [];
     rules := [];
     rs_next_steps := ∅ |}.

(** A hypothesis at 10 that two scoring rules lower by 5 and by 20. *)
Definition clamp_rules : RuleSet :=
  {| rs_hypotheses := [("dns", 10); ("network", 5)];
     elimination_rules := [];
     rules :=
       [ {| sr_id := "dns_fast"; sr_if := [("dns_latency_ms", COperators [("<", 50)])];
            sr_then := [("dns", -5)]; sr_explanation := "DNS lookups are fast" |};
         {| sr_id := "dns_cached"; sr_if := [("dns_cached", CBoolean true)];
            sr_then := [("dns", -20)]; sr_explanation := "DNS answers are cached" |} ];
     rs_next_steps := ∅ |}.

Definition clamp_signals : Signals :=
  {[ "dns_latency_ms" := VNum 20; "dns_cached" := VBool true ]}.

(** A low CPU usage rules [cpu] out; a scoring rule then tries to add
    1000 to it. *)
Definition revive_rules : RuleSet :=
  {| rs_hypotheses := [("dns", 10); ("cpu", 10)];
     elimination_rules :=
       [ {| er_id := "cpu_idle"; er_if := [("cpu_usage_percent", COperators [("<", 30)])];
            er_eliminate := ["cpu"]; er_explanation := "CPU is idle" |} ];
     rules :=
       [ {| sr_id := "slow"; sr_if := [("affected_users", CString "everyone")];
            sr_then := [("cpu", 1000); ("dns", 5)];
            sr_explanation := "Everyone is affected" |} ];
     rs_next_steps := {[ "dns" := ["Flush the DNS cache"] ]} |}.

Definition revive_signals : Signals :=
  {[ "cpu_usage_percent" := VNum 22; "affected_users" := VStr "everyone" ]}.

(** Two hypotheses that end with the same score, and a third one. *)
Definition tie_rules : RuleSet :=
  {| rs_hypotheses := [("disk", 10); ("network", 20); ("dns", 20)];
     elimination_rules := [];
     rules :=
       [ {| sr_id := "slow_io"; sr_if := [("disk_latency_ms", COperators [(">=", 50)])];
            sr_then := [("disk", 5)]; sr_explanation := "Disk latency is high" |} ];
     rs_next_steps := {[ "network" := ["Trace the route"] ]} |}.

Definition tie_signals : Signals := {[ "disk_latency_ms" := VNum 85 ]}.

(** A scoring rule whose operator set has the unknown operator [>>]
    behind a known one. *)
Definition unknown_operator_rules : RuleSet :=
  {| rs_hypotheses := [("cpu", 10)];
     elimination_rules := [];
     rules :=
       [ {| sr_id := "loaded";
            sr_if := [("load_average", COperators [(">", 100); (">>", 5)])];
            sr_then := [("cpu", 30)]; sr_explanation := "The machine is loaded" |} ];
     rs_next_steps := ∅ |}.

Definition light_load : Signals := {[ "load_average" := VNum 3 ]}.
Definition heavy_load : Signals := {[ "load_average" := VNum 120 ]}.

(** ** Predicates of the statements *)

(** The snapshot entry of an eliminated hypothesis. *)
Definition frozen (hypothesis : string) (hyps : list (string * HypothesisData))
  : Prop :=
  Obj.get hypothesis hyps = Some {| score := 0; eliminated := true |}.

(** Every name on [eliminatedCauses] has a frozen snapshot entry. *)
Definition causes_frozen (e : Engine) : Prop :=
  forall hypothesis,
    In hypothesis (eliminatedCauses e) -> frozen hypothesis (hypotheses e).

(** No score of the snapshot is negative. *)
Definition nonneg_scores (hyps : list (string * HypothesisData)) : Prop :=
  Forall (fun p => 0 <= score (snd p)) hyps.

(** The rounding the specification names: the nearest integer to
    [num / den], a tie going away from zero. *)
Definition round_half_away_from_zero (num den : Z) : Z :=
  Z.sgn num * Z.sgn den * ((2 * Z.abs num + Z.abs den) / (2 * Z.abs den)).

Definition sum_percent (l : list Normalized) : Z :=
  fold_right (fun h sum => n_confidence_percent h + sum) 0 l.

(** The order of the ranked list: the percentage does not increase. *)
Definition descending (a b : Normalized) : Prop :=
  n_confidence_percent b <= n_confidence_percent a.

Definition has_percent (percent : Z) (h : Normalized) : bool :=
  n_confidence_percent h =? percent.

(** ** Display names *)

(** [x || d] for [x] a string or [undefined]: [undefined] and the empty
    string are falsy. *)
Definition or_else (x : option string) (d : string) : string :=
  match x with
  | Some (String c rest) => String c rest
  | Some EmptyString | None => d
  end.

(** The table of [formatCauseName]. *)
Definition names : list (string * string) :=
  [ ("dns", "DNS Resolution");
    ("network", "Network Latency");
    ("disk", "Disk I/O");
    ("cpu", "CPU Usage");
    ("memory", "Memory Pressure");
    ("application", "Application Layer");
    ("vpn", "VPN Overhead");
    ("bandwidth", "Bandwidth Limitation");
    ("unknown", "Insufficient Data") ].

(** [names[cause] || cause], for a cause that is no member of
    [Object.prototype]. *)
Definition formatCauseName (cause : string) : string :=
  or_else (Obj.get cause names) cause.

(** ** The results screen: from the wizard parameters to the analysis *)

(** What [loadDiagnosticRules] resolves to: [null] when the fetch or the
    parse fails (or another falsy value); the rule set of
    [diagnostic-rules.json]; or a document of another shape, on which
    [new DiagnosticEngine(rules)] or [analyze] raises (the constructor
    does on [{}], which has no [hypotheses] to copy), with the warnings
    that the engine printed before it raised. *)
Inductive Loaded : Type :=
  | NoDocument
  | OtherDocument (warnings : list string)
  | RulesDocument (rules : RuleSet).

(** The tables of [mapEngineResultToLegacy]. *)
Definition bottleneckNames : list (string * string) :=
  [ ("dns",
     "DNS resolution delays");
    ("network",
     "Network latency issues");
    ("disk",
     "Disk I/O bottleneck");
    ("cpu",
     "CPU saturation");
    ("memory",
     "Memory pressure");
    ("application",
     "Application-layer issues");
    ("vpn",
     "VPN connection overhead");
    ("bandwidth",
     "Network bandwidth saturation");
    ("unknown",
     "Insufficient diagnostic data") ].

Definition explanations : list (string * string) :=
  [ ("dns",
     "DNS resolution happens before any network request. High DNS times indicate your system is waiting for domain name lookups to complete before it can even start connecting to the server.");
    ("network",
     "High network latency means packets are taking a long time to travel between your device and servers. This could be due to network congestion, routing issues, or problems with your ISP's infrastructure.");
    ("disk",
     "Disk I/O bottlenecks occur when your storage device cannot keep up with read/write demands. This is often characterized by high latency with low CPU usage, indicating the system is waiting for disk operations.");
    ("cpu",
     "CPU saturation means your processor is working at or near maximum capacity. This leaves little headroom for additional work and causes delays in processing requests.");
    ("memory",
     "Memory pressure occurs when your system is running low on available RAM and may be swapping to disk. This significantly degrades performance as disk is much slower than RAM.");
    ("application",
     "Application-layer issues are problems within the specific software or service, such as inefficient code, database queries, or resource contention within the application itself.");
    ("vpn",
     "VPNs encrypt and route your traffic through remote servers, adding extra network hops. This encryption and routing overhead increases latency, especially with distant servers or slower VPN protocols.");
    ("bandwidth",
     "When your network bandwidth is fully utilized, all devices and applications compete for limited capacity. This creates a bottleneck where data transfer speeds are constrained by your internet connection's maximum throughput.");
    ("unknown",
     "Without sufficient diagnostic data, it's difficult to pinpoint the exact bottleneck. Performance issues can stem from many sources including network, server, or application-level problems. More detailed metrics help isolate the root cause.") ].

(** What the results screen displays. *)
Record Analysis : Type := {
  bottleneck : string;
  confidence : string;
  confidencePercent : Z;
  evidence' : list string;
  nextSteps : list string;
  explanation : string;
  recommendations : list string;
  engineResult : option DiagnosticResult
}.

(** The two lookups are those of a primary cause that is no member of
    [Object.prototype]. *)
Definition mapEngineResultToLegacy (engineResult : DiagnosticResult) : Analysis :=
  {| bottleneck :=
       or_else (Obj.get (primary_cause engineResult) bottleneckNames)
         (primary_cause engineResult);
     confidence := confidence_level engineResult;
     confidencePercent := confidence_percent engineResult;
     evidence' := evidence engineResult;
     nextSteps := next_steps engineResult;
     explanation := or_else (Obj.get (primary_cause engineResult) explanations) "";
     recommendations := next_steps engineResult;
     engineResult := Some engineResult |}.

(** The six variables that the branches of [analyzeBottleneckLegacy]
    assign. *)
Record Diagnosis : Type := {
  d_bottleneckType : string;
  d_confidence : Z;
  d_evidence : list string;
  d_nextSteps : list string;
  d_explanation : string;
  d_recommendations : list string
}.

Definition diagnosis_dns (dnsMs : Z) : Diagnosis :=
  {| d_bottleneckType := "DNS resolution delays";
     d_confidence := if 500 <? dnsMs then 85 else 72;
     d_evidence :=
       [ "DNS lookup time: " +:+ pretty dnsMs +:+ "ms (normal: <100ms)";
         "High DNS resolution latency detected";
         "Issue occurs before establishing connection" ];
     d_nextSteps :=
       [ "Switch to a public DNS server (8.8.8.8 or 1.1.1.1)";
         "Flush your DNS cache";
         "Check DNS server response times with dig/nslookup" ];
     d_explanation :=
       "DNS resolution happens before any network request. High DNS times indicate your system is waiting for domain name lookups to complete before it can even start connecting to the server.";
     d_recommendations :=
       [ "Clear your DNS cache using your operating system tools";
         "Try switching to a faster DNS provider (e.g., 8.8.8.8, 1.1.1.1)";
         "Check if your local DNS server is experiencing issues";
         "Verify that your hosts file doesn't have conflicting entries" ] |}.

Definition diagnosis_vpn (latencyMs : Z) : Diagnosis :=
  {| d_bottleneckType := "VPN connection overhead";
     d_confidence := 88;
     d_evidence :=
       [ "Network latency: " +:+ pretty latencyMs +:+ "ms (normal: <100ms)";
         "VPN connection confirmed";
         "Extra routing hops through VPN server" ];
     d_nextSteps :=
       [ "Temporarily disable VPN to test";
         "Select a closer VPN server location";
         "Switch VPN protocol (try WireGuard for lower latency)" ];
     d_explanation :=
       "VPNs encrypt and route your traffic through remote servers, adding extra network hops. This encryption and routing overhead increases latency, especially with distant servers or slower VPN protocols.";
     d_recommendations :=
       [ "Try connecting without VPN to verify the issue";
         "Switch to a geographically closer VPN server";
         "Consider using a different VPN protocol (WireGuard vs OpenVPN)";
         "Check if split-tunneling can exclude certain traffic" ] |}.

Definition diagnosis_wifi (latencyMs : Z) : Diagnosis :=
  {| d_bottleneckType := "Wi-Fi signal interference";
     d_confidence := 76;
     d_evidence :=
       [ "Network latency: " +:+ pretty latencyMs +:+ "ms";
         "Connected via Wi-Fi";
         "Wireless interference likely affecting signal" ];
     d_nextSteps :=
       [ "Move closer to your router";
         "Switch to 5GHz Wi-Fi band if available";
         "Test with wired Ethernet connection" ];
     d_explanation :=
       "Wi-Fi signals can be affected by distance, physical obstacles, and interference from other devices. This causes packet retransmissions and variable latency that wired connections don't experience.";
     d_recommendations :=
       [ "Move closer to your Wi-Fi router";
         "Switch to 5GHz band if available for faster speeds";
         "Reduce interference from other devices";
         "Try using a wired Ethernet connection for comparison" ] |}.

Definition diagnosis_severe_latency (latencyMs : Z) : Diagnosis :=
  {| d_bottleneckType := "Network latency issues";
     d_confidence := 82;
     d_evidence :=
       [ "Severe latency: " +:+ pretty latencyMs +:+ "ms (normal: <100ms)";
         "Consistent high ping times";
         "Affects all network requests" ];
     d_nextSteps :=
       [ "Run traceroute to identify bottleneck location";
         "Restart your router and modem";
         "Contact ISP to check for service issues" ];
     d_explanation :=
       "High network latency means packets are taking a long time to travel between your device and servers. This could be due to network congestion, routing issues, or problems with your ISP's infrastructure.";
     d_recommendations :=
       [ "Check if other devices on your network are consuming bandwidth";
         "Restart your router/modem";
         "Contact your ISP to check for service issues";
         "Run a traceroute to identify where delays occur" ] |}.

Definition diagnosis_general_latency (latencyMs : Z) : Diagnosis :=
  {| d_bottleneckType := "General network latency";
     d_confidence := 68;
     d_evidence :=
       [ "Elevated latency: " +:+ pretty latencyMs +:+ "ms";
         "Network response slower than expected";
         "Multiple factors could be contributing" ];
     d_nextSteps :=
       [ "Test at different times of day";
         "Check for bandwidth-heavy applications";
         "Verify network equipment is functioning" ];
     d_explanation :=
       "Moderate network latency can result from various factors including network congestion, distance to servers, or local network issues. It's important to isolate the specific cause through testing.";
     d_recommendations :=
       [ "Test your connection at different times of day";
         "Check for background applications consuming bandwidth";
         "Verify your network equipment is functioning properly" ] |}.

Definition diagnosis_bandwidth_saturation (throughputMbps : Z) : Diagnosis :=
  {| d_bottleneckType := "Network bandwidth saturation";
     d_confidence := 84;
     d_evidence :=
       [ "Throughput: " +:+ pretty throughputMbps +:+ " Mbps (expected: >10 Mbps)";
         "Affects all applications and devices";
         "Consistent low bandwidth measurements" ];
     d_nextSteps :=
       [ "Pause downloads/streaming on other devices";
         "Run speed test to confirm available bandwidth";
         "Check router for bandwidth-heavy connections" ];
     d_explanation :=
       "When your network bandwidth is fully utilized, all devices and applications compete for limited capacity. This creates a bottleneck where data transfer speeds are constrained by your internet connection's maximum throughput.";
     d_recommendations :=
       [ "Check if other devices or applications are using bandwidth";
         "Pause large downloads or streaming on other devices";
         "Upgrade your internet plan if consistently slow";
         "Run a speed test at different times to identify patterns" ] |}.

Definition diagnosis_application_bandwidth (throughputMbps : Z) : Diagnosis :=
  {| d_bottleneckType := "Application-specific bandwidth limits";
     d_confidence := 71;
     d_evidence :=
       [ "Low throughput: " +:+ pretty throughputMbps +:+ " Mbps";
         "Only affects specific application or service";
         "Other services perform normally" ];
     d_nextSteps :=
       [ "Check application bandwidth settings";
         "Verify no server-side rate limiting";
         "Test from different network to compare" ];
     d_explanation :=
       "Some applications or servers implement bandwidth throttling to manage load or enforce fair usage. This creates an artificial ceiling on transfer speeds even when your network has available capacity.";
     d_recommendations :=
       [ "Check if the application has bandwidth throttling settings";
         "Verify server-side rate limiting isn't affecting you";
         "Try accessing from a different network to compare" ] |}.

Definition diagnosis_server_response (ttfbMs : Z) : Diagnosis :=
  {| d_bottleneckType := "Server response time delays";
     d_confidence := 79;
     d_evidence :=
       [ "TTFB: " +:+ pretty ttfbMs +:+ "ms (normal: <200ms)";
         "Server taking long to process requests";
         "Network latency is normal, server is slow" ];
     d_nextSteps :=
       [ "Check server status page for outages";
         "Try accessing during off-peak hours";
         "Monitor server response times over time" ];
     d_explanation :=
       "Time To First Byte (TTFB) measures how long the server takes to start responding. High TTFB indicates the server is busy processing your request, not a network issue. This could be due to server load, slow database queries, or inefficient backend code.";
     d_recommendations :=
       [ "Check server status pages for known issues";
         "Try accessing during off-peak hours";
         "Clear browser cache and cookies";
         "Verify the server isn't under heavy load" ] |}.

Definition diagnosis_intermittent : Diagnosis :=
  {| d_bottleneckType := "Intermittent network instability";
     d_confidence := 65;
     d_evidence :=
       [ "Performance varies over time";
         "No consistent pattern detected";
         "Issue comes and goes unpredictably" ];
     d_nextSteps :=
       [ "Monitor connection over extended period";
         "Note times when issues occur";
         "Check for patterns (time of day, specific actions)" ];
     d_explanation :=
       "Intermittent issues are often caused by temporary conditions like network congestion during peak hours, wireless interference, or periodic server load. Identifying when issues occur helps narrow down the root cause.";
     d_recommendations :=
       [ "Monitor your connection over a longer period";
         "Check for scheduled maintenance windows";
         "Look for patterns in when the issues occur";
         "Consider environmental factors (time of day, network congestion)" ] |}.

Definition diagnosis_single_page : Diagnosis :=
  {| d_bottleneckType := "Specific resource or endpoint issue";
     d_confidence := 70;
     d_evidence :=
       [ "Only one page or resource affected";
         "Other pages load normally";
         "Isolated to specific endpoint" ];
     d_nextSteps :=
       [ "Inspect browser DevTools Network tab";
         "Identify which specific resource is slow";
         "Check for failed or hanging requests" ];
     d_explanation :=
       "When only specific pages or resources are slow, the bottleneck is likely with that particular asset or API endpoint. This could be due to large file sizes, slow third-party scripts, or backend issues with specific endpoints.";
     d_recommendations :=
       [ "Check browser developer tools for failed requests";
         "Look for specific assets taking longer to load";
         "Verify the page doesn't have broken or slow third-party resources";
         "Try hard-refreshing the page (Ctrl+Shift+R or Cmd+Shift+R)" ] |}.

Definition diagnosis_network_path : Diagnosis :=
  {| d_bottleneckType := "Network infrastructure issues";
     d_confidence := 73;
     d_evidence :=
       [ "Network diagnostics indicate problems";
         "Infrastructure-level issues detected";
         "Affects multiple services" ];
     d_nextSteps :=
       [ "Run system network diagnostics";
         "Check physical cable connections";
         "Restart network equipment" ];
     d_explanation :=
       "Network infrastructure problems occur at the hardware or routing level, affecting all traffic. This includes issues with routers, switches, cables, or ISP routing problems that impact your entire connection.";
     d_recommendations :=
       [ "Run network diagnostics on your operating system";
         "Check physical network connections";
         "Verify router and modem are functioning correctly";
         "Consider contacting your network administrator or ISP" ] |}.

Definition diagnosis_insufficient : Diagnosis :=
  {| d_bottleneckType := "Insufficient diagnostic data";
     d_confidence := 45;
     d_evidence :=
       [ "Limited diagnostic information available";
         "Unable to isolate specific cause";
         "More data needed for accurate diagnosis" ];
     d_nextSteps :=
       [ "Re-run diagnostic with manual metrics";
         "Collect more detailed measurements";
         "Monitor performance over longer period" ];
     d_explanation :=
       "Without sufficient diagnostic data, it's difficult to pinpoint the exact bottleneck. Performance issues can stem from many sources including network, server, or application-level problems. More detailed metrics help isolate the root cause.";
     d_recommendations :=
       [ "Run the diagnostic wizard again with more detailed metrics";
         "Enable manual metrics input for more accurate analysis";
         "Check basic connectivity using ping and traceroute";
         "Monitor the issue over time to identify patterns" ] |}.

(** [params.get(name) === value]. *)
Definition param_is (params : list (string * string)) (name value : string)
  : bool :=
  match Obj.get name params with
  | Some v => String.eqb v value
  | None => false
  end.

Section Wizard.

(** The built-in [parseFloat], with [None] for [NaN]. *)
Variable parseFloat : string -> option Z.

(** [parseFloat(params.get(name))]; [parseFloat(null)] is [NaN]. *)
Definition metric (params : list (string * string)) (name : string) : option Z :=
  match Obj.get name params with
  | Some v => parseFloat v
  | None => None
  end.

(** [signals[key] = value] when [value] is not [NaN]. *)
Definition set_number (key : string) (value : option Z) (signals : Signals)
  : Signals :=
  match value with
  | Some n => <[key := VNum n]> signals
  | None => signals
  end.

(** [params] is the query string as [URLSearchParams] holds it: the
    pairs in order, [get] returning the first value of a name. *)
Definition extractSignals (params : list (string * string)) : Signals :=
  let signals : Signals := ∅ in
  let signals :=
    if param_is params "scope" "one" then <["affected_users" := VStr "one"]> signals
    else if param_is params "scope" "multiple"
    then <["affected_users" := VStr "multiple"]> signals
    else if param_is params "scope" "everyone"
    then <["affected_users" := VStr "everyone"]> signals
    else signals in
  let signals :=
    <["timing_pattern" := VStr (or_else (Obj.get "timing" params) "")]> signals in
  let signals := set_number "dns_latency_ms" (metric params "dns_ms") signals in
  let signals := set_number "network_latency_ms" (metric params "latency_ms") signals in
  let signals :=
    <["packet_loss_percent" :=
        VNum (default 0 (metric params "packet_loss_percent"))]> signals in
  let signals := set_number "disk_latency_ms" (metric params "disk_latency") signals in
  let signals := set_number "cpu_usage_percent" (metric params "cpu_usage") signals in
  let signals := set_number "load_average" (metric params "load_average") signals in
  let signals :=
    <["memory_pressure" := VBool (param_is params "memory_pressure" "true")]> signals in
  let signals :=
    set_number "memory_usage_percent" (metric params "memory_usage") signals in
  let signals :=
    <["app_specific" :=
        VBool (param_is params "target" "app" || param_is params "target" "website")]>
      signals in
  let signals :=
    <["vpn_in_use" :=
        VBool (param_is params "vpn_issue" "yes" || param_is params "vpn_issue" "true")]>
      signals in
  let signals :=
    <["recent_change" := VBool (param_is params "recent_change" "true")]> signals in
  let signals := set_number "ttfb_ms" (metric params "ttfb_ms") signals in
  let signals := set_number "throughput_mbps" (metric params "throughput_mbps") signals in
  signals.

(** The cascade of [analyzeBottleneckLegacy]. *)
Definition legacy_diagnosis (params : list (string * string)) : Diagnosis :=
  let highLatency := param_is params "high_latency" "true" in
  let lowBandwidth := param_is params "low_bandwidth" "true" in
  let dnsIssues := param_is params "dns_issues" "true" in
  let vpnIssue := param_is params "vpn_issue" "true" in
  let dnsMs := default 0 (metric params "dns_ms") in
  let latencyMs := default 0 (metric params "latency_ms") in
  let ttfbMs := default 0 (metric params "ttfb_ms") in
  let throughputMbps := default 0 (metric params "throughput_mbps") in
  if dnsIssues || (200 <? dnsMs) then diagnosis_dns dnsMs
  else if highLatency || (200 <? latencyMs) then
    if vpnIssue then diagnosis_vpn latencyMs
    else if param_is params "connection" "wifi" then diagnosis_wifi latencyMs
    else if 500 <? latencyMs then diagnosis_severe_latency latencyMs
    else diagnosis_general_latency latencyMs
  else if lowBandwidth || (throughputMbps <? 5) then
    if param_is params "slowness_scope" "everything"
    then diagnosis_bandwidth_saturation throughputMbps
    else diagnosis_application_bandwidth throughputMbps
  else if 1000 <? ttfbMs then diagnosis_server_response ttfbMs
  else if param_is params "timing" "intermittent" then diagnosis_intermittent
  else if param_is params "scope" "single-page" then diagnosis_single_page
  else if param_is params "diagnostic_path" "network" then diagnosis_network_path
  else diagnosis_insufficient.

Definition analyzeBottleneckLegacy (params : list (string * string)) : Analysis :=
  let d := legacy_diagnosis params in
  let confidenceLabel :=
    if 80 <=? d_confidence d then "High"
    else if 60 <=? d_confidence d then "Medium"
    else "Low" in
  {| bottleneck := d_bottleneckType d;
     confidence := confidenceLabel;
     confidencePercent := d_confidence d;
     evidence' := d_evidence d;
     nextSteps := d_nextSteps d;
     explanation := d_explanation d;
     recommendations := d_recommendations d;
     engineResult := None |}.

(** [analyzeBottleneckWithEngine] once [loadDiagnosticRules] has settled:
    [rules] is what it resolved to; [engine_defined] is
    [typeof DiagnosticEngine !== 'undefined'].  An exception of the
    engine is caught and leads to the legacy analysis; what the engine
    printed before it raised stays printed. *)
Definition analyzeBottleneckWithEngine (rules : Loaded)
  (engine_defined : bool) (params : list (string * string)) : Console Analysis :=
  match rules with
  | RulesDocument rules =>
      if engine_defined then
        let signals := extractSignals params in
        let engine := new rules in
        let* out := analyze engine signals in
        match fst out with
        | Some result => ret (mapEngineResultToLegacy result)
        | None => ret (analyzeBottleneckLegacy params)
        end
      else ret (analyzeBottleneckLegacy params)
  | OtherDocument warnings =>
      if engine_defined then
        let* _ := (tt, warnings) in
        ret (analyzeBottleneckLegacy params)
      else ret (analyzeBottleneckLegacy params)
  | NoDocument => ret (analyzeBottleneckLegacy params)
  end.

End Wizard.

(** ** Predicates of the further statements *)

(** Whether a trigger matches the signals. *)
Definition matches (signals : Signals) (trigger : Trigger) : bool :=
  fst (evaluateConditions trigger signals).

(** The records that the two stages append for a rule. *)
Definition elimination_record (rule : EliminationRule) : AppliedRule :=
  {| ar_id := er_id rule; ar_type := elimination;
     ar_explanation := er_explanation rule; ar_scores := None |}.

Definition scoring_record (rule : ScoringRule) : AppliedRule :=
  {| ar_id := sr_id rule; ar_type := scoring;
     ar_explanation := sr_explanation rule; ar_scores := Some (sr_then rule) |}.

(** The operator symbols of a trigger, and the triggers of a rule set. *)
Definition operators_of (trigger : Trigger) : list string :=
  flat_map (fun entry =>
              match snd entry with
              | COperators operators => List.map fst operators
              | _ => []
              end) trigger.

Definition triggers_of (rs : RuleSet) : list Trigger :=
  List.map er_if (elimination_rules rs) ++ List.map sr_if (rules rs).

(** The type of a primitive value, and the type that [extractSignals]
    gives to each key it can set. *)
Inductive Kind : Type := KString | KBoolean | KNumber | KNull.

Definition kind_of (v : Value) : Kind :=
  match v with
  | VNull => KNull
  | VBool _ => KBoolean
  | VNum _ => KNumber
  | VStr _ => KString
  end.

Definition signal_kinds : list (string * Kind) :=
  [ ("affected_users", KString); ("timing_pattern", KString);
    ("dns_latency_ms", KNumber); ("network_latency_ms", KNumber);
    ("packet_loss_percent", KNumber); ("disk_latency_ms", KNumber);
    ("cpu_usage_percent", KNumber); ("load_average", KNumber);
    ("memory_pressure", KBoolean); ("memory_usage_percent", KNumber);
    ("app_specific", KBoolean); ("vpn_in_use", KBoolean);
    ("recent_change", KBoolean); ("ttfb_ms", KNumber);
    ("throughput_mbps", KNumber) ].

(** A snapshot entry with the flag set belongs to a listed cause. *)
Definition flagged_listed_at (e : Engine) : Prop :=
  forall h data,
    In (h, data) (hypotheses e) -> eliminated data = true ->
    In h (eliminatedCauses e).

(** Whether one operator, and one entry of a trigger, holds. *)
Definition operator_holds (value : Value) (entry : string * Z) : bool :=
  match compare value (fst entry) (snd entry) with
  | Some b => b
  | None => false
  end.

Definition entry_holds (signals : Signals) (entry : string * Condition) : bool :=
  match signals !! fst entry with
  | None | Some VNull => false
  | Some value =>
      match snd entry with
      | CString s => JS.strict_eq value (VStr s)
      | CBoolean b => JS.strict_eq value (VBool b)
      | CNumber n => JS.strict_eq value (VNum n)
      | COperators operators => forallb (operator_holds value) operators
      end
  end.

(** The deltas that the matching scoring rules hold for a hypothesis, in
    the order in which they are applied. *)
Definition deltas_for (signals : Signals) (h : string) (scoring : list ScoringRule)
  : list Z :=
  flat_map (fun rule =>
              if matches signals (sr_if rule)
              then List.map snd
                     (List.filter (fun entry => String.eqb h (fst entry))
                        (sr_then rule))
              else []) scoring.

Definition add_clamped (s delta : Z) : Z := Z.max 0 (s + delta).

(** Two signal maps that agree on the keys of a list of triggers. *)
Definition agree_on (triggers : list Trigger) (signals signals' : Signals) : Prop :=
  forall trigger key,
    In trigger triggers -> In key (List.map fst trigger) ->
    signals !! key = signals' !! key.

(** ** Further sample inputs *)

Fixpoint digits_prefix (s : string) (acc : Z) : Z :=
  match s with
  | String c s' =>
      match JS.digit_of c with
      | Some d => digits_prefix s' (10 * acc + d)
      | None => acc
      end
  | EmptyString => acc
  end.

Definition unsigned_prefix (s : string) : option Z :=
  match s with
  | String c _ =>
      match JS.digit_of c with
      | Some _ => Some (digits_prefix s 0)
      | None => None
      end
  | EmptyString => None
  end.

(** An instance of [parseFloat] for the sample inputs: it is the
    built-in on the strings whose longest numeric prefix is a decimal
    integer literal. *)
Definition parseFloat_integer (s : string) : option Z :=
  match JS.strip_left s with
  | String "-" r => Z.opp <$> unsigned_prefix r
  | String "+" r => unsigned_prefix r
  | t => unsigned_prefix t
  end.

(** The query string of the first case of [test-engine.js], as the
    wizard would pass it. *)
Definition dns_case : list (string * string) :=
  [ ("scope", "multiple"); ("timing", "intermittent"); ("dns_ms", "420");
    ("latency_ms", "35"); ("disk_latency", "35"); ("cpu_usage", "22");
    ("target", "app"); ("vpn_issue", "yes") ].

(** Rules in the style of the rule-set document: low CPU and disk values
    rule these causes out, a slow DNS lookup scores [dns]. *)
Definition dns_rules : RuleSet :=
  {| rs_hypotheses := [("dns", 10); ("network", 10); ("disk", 10); ("cpu", 10)];
     elimination_rules :=
       [ {| er_id := "cpu_idle";
            er_if := [("cpu_usage_percent", COperators [("<", 30)])];
            er_eliminate := ["cpu"]; er_explanation := "CPU usage is low" |};
         {| er_id := "disk_fast";
            er_if := [("disk_latency_ms", COperators [("<", 40)])];
            er_eliminate := ["disk"; "cpu"]; er_explanation := "Disk is fast" |} ];
     rules :=
       [ {| sr_id := "dns_slow";
            sr_if := [("dns_latency_ms", COperators [(">", 200)])];
            sr_then := [("dns", 40); ("network", -5)];
            sr_explanation := "DNS lookups are slow" |};
         {| sr_id := "net_slow";
            sr_if := [("network_latency_ms", COperators [(">", 200)])];
            sr_then := [("network", 40)];
            sr_explanation := "Network latency is high" |};
         {| sr_id := "many_users";
            sr_if := [("affected_users", CString "multiple");
                      ("app_specific", CBoolean true)];
            sr_then := [("network", 10)];
            sr_explanation := "Several users of one application" |} ];
     rs_next_steps := {[ "dns" := ["Switch to a public DNS server"] ]} |}.

(** The signals that [extractSignals] makes of [dns_case]. *)
Definition dns_signals : Signals := extractSignals parseFloat_integer dns_case.

(** A query string with a throughput and a slow first byte. *)
Definition slow_server_case : list (string * string) :=
  [ ("throughput_mbps", "50"); ("ttfb_ms", "1500") ].

(** * Properties *)

(** ** The console monad *)

Lemma bind_fst {A B} (m : Console A) (k : A -> Console B) :
  fst (bind m k) = fst (k (fst m)).
Proof. unfold bind. destruct (k (fst m)); reflexivity. Qed.

Lemma bind_snd {A B} (m : Console A) (k : A -> Console B) :
  snd (bind m k) = snd m ++ snd (k (fst m)).
Proof. unfold bind. destruct (k (fst m)); reflexivity. Qed.

Lemma console_ext {A} (m1 m2 : Console A) :
  fst m1 = fst m2 -> snd m1 = snd m2 -> m1 = m2.
Proof. destruct m1, m2; simpl; congruence. Qed.

Lemma foldM_fst {A S} (f : S -> A -> Console S) l s :
  fst (foldM f l s) = fold_left (fun s a => fst (f s a)) l s.
Proof.
  revert s. induction l as [|a l IH]; intros s; simpl; [reflexivity|].
  rewrite bind_fst. apply IH.
Qed.

(** Every message of a step is in the log of the whole loop, when the
    messages of a step do not depend on the state. *)
Lemma foldM_log_In {A S} (f : S -> A -> Console S) (log : A -> list string) :
  (forall s a, snd (f s a) = log a) ->
  forall l s a msg, In a l -> In msg (log a) -> In msg (snd (foldM f l s)).
Proof.
  intros Hlog l. induction l as [|b l IH]; intros s a msg Ha Hmsg; [destruct Ha|].
  simpl. rewrite bind_snd, Hlog. apply in_or_app.
  destruct Ha as [->|Ha]; [left; assumption|right; eauto].
Qed.

(** ** Operators and conditions *)

Lemma compare_unrecognised value operator threshold :
  recognised operator = false -> compare value operator threshold = None.
Proof.
  unfold recognised, compare. simpl. intros H.
  repeat (apply orb_false_elim in H; destruct H as [-> H]). reflexivity.
Qed.

Lemma compare_recognised value operator threshold :
  recognised operator = true -> is_Some (compare value operator threshold).
Proof.
  unfold recognised, compare. simpl. intros H.
  repeat (destruct (String.eqb operator _); [eexists; reflexivity|]).
  discriminate.
Qed.

(** A successful evaluation printed nothing. *)
Lemma evaluateOperators_true_silent value operators :
  fst (evaluateOperators value operators) = true ->
  snd (evaluateOperators value operators) = [].
Proof.
  induction operators as [|[operator threshold] rest IH]; simpl; [reflexivity|].
  destruct (compare value operator threshold) as [[]|]; auto; discriminate.
Qed.

Lemma evaluateConditions_true_silent conditions signals :
  fst (evaluateConditions conditions signals) = true ->
  snd (evaluateConditions conditions signals) = [].
Proof.
  induction conditions as [|[key condition] rest IH]; simpl; [reflexivity|].
  destruct (signals !! key) as [[| b | n | s]|]; try discriminate;
    destruct condition as [s' | b' | n' | operators];
    try (destruct (negb _); [discriminate | exact IH]);
    rewrite bind_fst, bind_snd;
    destruct (fst (evaluateOperators _ operators)) eqn:Hops; simpl;
    try discriminate;
    intros H; rewrite (evaluateOperators_true_silent _ _ Hops), (IH H);
    reflexivity.
Qed.

(** Evaluation of the entries after a prefix: the loop reaches them only
    if the prefix matched, and then the log is still empty. *)
Lemma evaluateConditions_app pre post signals :
  evaluateConditions (pre ++ post) signals =
  if fst (evaluateConditions pre signals)
  then evaluateConditions post signals
  else evaluateConditions pre signals.
Proof.
  induction pre as [|[key condition] pre IH]; simpl; [reflexivity|].
  destruct (signals !! key) as [[| b | n | s]|]; try reflexivity;
    destruct condition as [s' | b' | n' | operators];
    try (destruct (negb _); [reflexivity | exact IH]).
  all: apply console_ext; rewrite ?bind_fst, ?bind_snd;
    destruct (fst (evaluateOperators _ operators)) eqn:Hops; simpl;
    rewrite ?bind_fst, ?bind_snd, ?Hops; simpl; try reflexivity;
    rewrite IH; destruct (fst (evaluateConditions pre signals)) eqn:Hpre;
    rewrite ?bind_fst, ?bind_snd, ?Hops; simpl; rewrite ?Hpre; try reflexivity;
    rewrite (evaluateOperators_true_silent _ _ Hops); reflexivity.
Qed.

Lemma evaluateOperators_app value ops1 ops2 :
  evaluateOperators value (ops1 ++ ops2) =
  if fst (evaluateOperators value ops1)
  then evaluateOperators value ops2
  else evaluateOperators value ops1.
Proof.
  induction ops1 as [|[operator threshold] ops1 IH]; simpl; [reflexivity|].
  destruct (compare value operator threshold) as [[]|]; auto.
Qed.

(** What the loop of [evaluateConditions] does at a key that is missing
    or bound to [null]. *)
Lemma evaluateConditions_missing key condition rest signals :
  signals !! key = None \/ signals !! key = Some VNull ->
  evaluateConditions ((key, condition) :: rest) signals = (false, []).
Proof. simpl. intros [-> | ->]; reflexivity. Qed.

Lemma strict_eq_spec x y : JS.strict_eq x y = true <-> x = y.
Proof.
  destruct x, y; simpl; split; try congruence; try reflexivity.
  - intros H. apply Bool.eqb_prop in H. congruence.
  - intros [= ->]. apply Bool.eqb_reflx.
  - intros H. apply Z.eqb_eq in H. congruence.
  - intros [= ->]. apply Z.eqb_refl.
  - intros H. apply String.eqb_eq in H. congruence.
  - intros [= ->]. apply String.eqb_refl.
Qed.

Lemma evaluateConditions_scalar key condition literal rest signals value :
  scalar_value condition = Some literal ->
  signals !! key = Some value ->
  evaluateConditions ((key, condition) :: rest) signals =
  if JS.strict_eq value literal then evaluateConditions rest signals
  else (false, []).
Proof.
  intros Hlit Hkey. simpl. rewrite Hkey.
  destruct condition; simplify_eq/=; destruct value; simpl; try reflexivity;
    match goal with |- context [negb ?b] => destruct b end; reflexivity.
Qed.

(** The loop stops with [false] at a key that is missing or [null],
    with the log of the entries in front of it. *)
Lemma evaluateConditions_stops pre key condition post signals :
  signals !! key = None \/ signals !! key = Some VNull ->
  evaluateConditions (pre ++ (key, condition) :: post) signals =
  (false, snd (evaluateConditions pre signals)).
Proof.
  intros Hkey. rewrite evaluateConditions_app.
  rewrite (evaluateConditions_missing key condition post signals Hkey).
  destruct (evaluateConditions pre signals) as [[] w] eqn:Hpre; simpl.
  - rewrite <- (evaluateConditions_true_silent pre signals); rewrite Hpre; reflexivity.
  - reflexivity.
Qed.

(** C9. A trigger that references a key absent from the signals does not
    match: [evaluateConditions] returns [false], which is a value and not
    an error.  The absent key is not logged: the log is the one of the
    entries in front of that key, and it is empty when these are
    satisfied. *)
Theorem missing_signal_fails trigger key signals :
  In key (List.map fst trigger) ->
  signals !! key = None ->
  fst (evaluateConditions trigger signals) = false /\
  (forall pre condition post,
     trigger = pre ++ (key, condition) :: post ->
     evaluateConditions trigger signals =
       (false, snd (evaluateConditions pre signals)) /\
     (fst (evaluateConditions pre signals) = true ->
      evaluateConditions trigger signals = (false, []))).
Proof.
  intros Hin Hkey.
  assert (Hstop : forall pre condition post,
            trigger = pre ++ (key, condition) :: post ->
            evaluateConditions trigger signals =
            (false, snd (evaluateConditions pre signals))).
  { intros pre condition post ->. apply evaluateConditions_stops. auto. }
  split.
  - apply in_map_iff in Hin as [[k condition] [Hk Hin]]. simpl in Hk. subst k.
    apply in_split in Hin as [pre [post Hsplit]].
    rewrite (Hstop pre condition post Hsplit). reflexivity.
  - intros pre condition post Hsplit. split; [eauto|].
    intros Hpre. rewrite (Hstop pre condition post Hsplit).
    rewrite (evaluateConditions_true_silent pre signals Hpre). reflexivity.
Qed.

(** C10. A key bound to [null] is treated as a missing key: evaluation
    does not tell the two apart, and a trigger that references the key
    fails whatever its condition is. *)
Theorem null_signal_is_missing trigger key signals :
  signals !! key = Some VNull ->
  evaluateConditions trigger signals =
    evaluateConditions trigger (delete key signals) /\
  (In key (List.map fst trigger) ->
   fst (evaluateConditions trigger signals) = false).
Proof.
  intros Hnull. split.
  - induction trigger as [|[k condition] rest IH]; simpl; [reflexivity|].
    destruct (decide (k = key)) as [->|Hne].
    + rewrite Hnull, lookup_delete_eq. reflexivity.
    + rewrite lookup_delete_ne by congruence. rewrite IH. reflexivity.
  - intros Hin. apply in_map_iff in Hin as [[k condition] [Hk Hin]].
    simpl in Hk. subst k.
    apply in_split in Hin as [pre [post ->]].
    rewrite evaluateConditions_stops by auto. reflexivity.
Qed.

(** C4 (amended). A scalar condition is compared with [!==]: it holds
    exactly when the signal is the same primitive value as the literal,
    of the same type, and the rest of the trigger is evaluated only
    then. *)
Theorem scalar_condition_strict key condition literal rest signals value :
  scalar_value condition = Some literal ->
  signals !! key = Some value ->
  (fst (evaluateConditions [(key, condition)] signals) = true <->
   value = literal) /\
  evaluateConditions ((key, condition) :: rest) signals =
    (if JS.strict_eq value literal then evaluateConditions rest signals
     else (false, [])).
Proof.
  intros Hlit Hkey.
  pose proof (evaluateConditions_scalar key condition literal) as Heval.
  split; [|apply Heval; assumption].
  rewrite (Heval [] signals value) by assumption.
  rewrite <- strict_eq_spec.
  destruct (JS.strict_eq value literal); simpl; intuition congruence.
Qed.

(** ** The stages keep the rule set *)

Lemma fold_left_invariant {A S} (P : S -> Prop) (f : S -> A -> S) l s :
  (forall s a, P s -> P (f s a)) -> P s -> P (fold_left f l s).
Proof.
  intros Hstep. revert s. induction l as [|a l IH]; simpl; auto.
Qed.

Lemma foldM_invariant {A S} (P : S -> Prop) (f : S -> A -> Console S) l s :
  (forall s a, P s -> P (fst (f s a))) -> P s -> P (fst (foldM f l s)).
Proof.
  intros Hstep Hs. rewrite foldM_fst.
  apply fold_left_invariant; auto.
Qed.

Lemma eliminate_rules e hypothesis :
  this_rules (eliminate e hypothesis) = this_rules e.
Proof. unfold eliminate. destruct (Obj.get _ _); reflexivity. Qed.

Lemma applyScore_rules e entry :
  this_rules (applyScore e entry) = this_rules e.
Proof.
  unfold applyScore. destruct entry as [h d].
  destruct (Obj.get _ _) as [data|]; [destruct (eliminated data)|]; reflexivity.
Qed.

Lemma applyEliminationRule_rules signals e rule :
  this_rules (fst (applyEliminationRule signals e rule)) = this_rules e.
Proof.
  unfold applyEliminationRule. rewrite bind_fst.
  destruct (fst (evaluateConditions _ _)); simpl; [|reflexivity].
  apply (fold_left_invariant (fun e' => this_rules e' = this_rules e)); auto.
  intros s a <-. apply eliminate_rules.
Qed.

Lemma applyScoringRule_rules signals e rule :
  this_rules (fst (applyScoringRule signals e rule)) = this_rules e.
Proof.
  unfold applyScoringRule. rewrite bind_fst.
  destruct (fst (evaluateConditions _ _)); simpl; [|reflexivity].
  apply (fold_left_invariant (fun e' => this_rules e' = this_rules e)); auto.
  intros s a <-. apply applyScore_rules.
Qed.

Lemma applyEliminationRules_rules signals e :
  this_rules (fst (applyEliminationRules signals e)) = this_rules e.
Proof.
  unfold applyEliminationRules.
  apply (foldM_invariant (fun e' => this_rules e' = this_rules e)); auto.
  intros s a <-. apply applyEliminationRule_rules.
Qed.

Lemma applyScoringRules_rules signals e :
  this_rules (fst (applyScoringRules signals e)) = this_rules e.
Proof.
  unfold applyScoringRules.
  apply (foldM_invariant (fun e' => this_rules e' = this_rules e)); auto.
  intros s a <-. apply applyScoringRule_rules.
Qed.

(** ** What a call of [analyze] prints and returns *)

Lemma applyEliminationRule_log signals e rule :
  snd (applyEliminationRule signals e rule) =
  snd (evaluateConditions (er_if rule) signals).
Proof.
  unfold applyEliminationRule. rewrite bind_snd.
  destruct (fst (evaluateConditions _ _)); simpl; apply app_nil_r.
Qed.

Lemma applyScoringRule_log signals e rule :
  snd (applyScoringRule signals e rule) =
  snd (evaluateConditions (sr_if rule) signals).
Proof.
  unfold applyScoringRule. rewrite bind_snd.
  destruct (fst (evaluateConditions _ _)); simpl; apply app_nil_r.
Qed.

(** The engine after the two stages of [analyze]. *)
Lemma analyze_fst e signals :
  fst (analyze e signals) =
  let e2 := fst (applyScoringRules signals
                   (fst (applyEliminationRules signals (reset e)))) in
  (calculateResult e2, e2).
Proof. unfold analyze. cbv zeta. rewrite !bind_fst. reflexivity. Qed.

Lemma analyze_snd e signals :
  snd (analyze e signals) =
  snd (applyEliminationRules signals (reset e)) ++
  snd (applyScoringRules signals
         (fst (applyEliminationRules signals (reset e)))).
Proof.
  unfold analyze. cbv zeta. rewrite bind_snd; cbv beta.
  rewrite bind_snd; cbv beta. simpl. rewrite app_nil_r. reflexivity.
Qed.

Lemma insert_by_confidence_cons a l :
  exists b l', insert_by_confidence a l = b :: l'.
Proof.
  destruct l as [|b l]; simpl; [eauto|].
  destruct (_ <? _); eauto.
Qed.

Lemma totalScore_shift active z :
  fold_left (fun sum (h : string * Z) => sum + snd h) active z =
  z + totalScore active.
Proof.
  unfold totalScore. revert z.
  induction active as [|h active IH]; intros z; simpl; [lia|].
  rewrite (IH (z + snd h)), (IH (0 + snd h)). lia.
Qed.

Lemma totalScore_cons h active :
  totalScore (h :: active) = snd h + totalScore active.
Proof. unfold totalScore at 1. simpl. apply totalScore_shift. Qed.

(** [calculateResult] never reads a field of [undefined]: when the total
    is not 0 there is an active hypothesis. *)
Lemma calculateResult_is_Some e : is_Some (calculateResult e).
Proof.
  unfold calculateResult.
  destruct (totalScore _ =? 0) eqn:Htotal; [eexists; reflexivity|].
  destruct (activeHypotheses (hypotheses e)) as [|h active].
  - discriminate.
  - simpl.
    destruct (insert_by_confidence_cons (normalize (totalScore (h :: active)) h)
                (sort_by_confidence
                   (List.map (normalize (totalScore (h :: active))) active)))
      as [b [l' ->]].
    eexists; reflexivity.
Qed.

Lemma evaluateOperators_unknown value ops1 operator threshold ops2 :
  recognised operator = false ->
  fst (evaluateOperators value (ops1 ++ (operator, threshold) :: ops2)) = false /\
  (fst (evaluateOperators value ops1) = true ->
   snd (evaluateOperators value (ops1 ++ (operator, threshold) :: ops2)) =
   ["Unknown operator: " +:+ operator]).
Proof.
  intros Hop. rewrite evaluateOperators_app. simpl.
  rewrite (compare_unrecognised _ _ _ Hop).
  destruct (fst (evaluateOperators value ops1)) eqn:H1; simpl; auto.
  split; [assumption | discriminate].
Qed.

Lemma evaluateConditions_unknown key ops1 operator threshold ops2 post signals :
  recognised operator = false ->
  let entry := (key, COperators (ops1 ++ (operator, threshold) :: ops2)) in
  fst (evaluateConditions (entry :: post) signals) = false /\
  (forall value,
     signals !! key = Some value -> value <> VNull ->
     fst (evaluateOperators value ops1) = true ->
     snd (evaluateConditions (entry :: post) signals) =
     ["Unknown operator: " +:+ operator]).
Proof.
  intros Hop entry. unfold entry. simpl.
  destruct (signals !! key) as [value|] eqn:Hkey; [|split; [reflexivity|discriminate]].
  destruct (evaluateOperators_unknown value ops1 operator threshold ops2 Hop)
    as [Hfalse Hlog].
  destruct value; try (split; [reflexivity|intros ? [= <-]; congruence]).
  all: rewrite bind_fst, bind_snd, Hfalse; simpl; split; [reflexivity|];
    intros ? [= <-] _ H1; rewrite (Hlog H1); reflexivity.
Qed.

Lemma foldM_log {A S} (f : S -> A -> Console S) (log : A -> list string) :
  (forall s a, snd (f s a) = log a) ->
  forall l s, snd (foldM f l s) = flat_map log l.
Proof.
  intros Hlog l. induction l as [|a l IH]; intros s; simpl; [reflexivity|].
  rewrite bind_snd, Hlog, IH. reflexivity.
Qed.

(** The log of an analysis is the concatenation of the logs of the
    triggers, those of the elimination rules first. *)
Lemma analyze_log e signals :
  snd (analyze e signals) =
  flat_map (fun trigger => snd (evaluateConditions trigger signals))
    (triggers_of (this_rules e)).
Proof.
  rewrite analyze_snd. unfold triggers_of, applyScoringRules.
  rewrite applyEliminationRules_rules. unfold applyEliminationRules. simpl.
  rewrite flat_map_app, !flat_map_concat_map, !List.map_map,
    <- !flat_map_concat_map.
  f_equal.
  - apply (foldM_log _ (fun r => snd (evaluateConditions (er_if r) signals))).
    intros. apply applyEliminationRule_log.
  - apply (foldM_log _ (fun r => snd (evaluateConditions (sr_if r) signals))).
    intros. apply applyScoringRule_log.
Qed.

(** An operator set on a signal that is present and not [null]. *)
Lemma evaluateConditions_operators key operators rest signals value :
  signals !! key = Some value -> value <> VNull ->
  evaluateConditions ((key, COperators operators) :: rest) signals =
  (fst (evaluateOperators value operators)
   && fst (evaluateConditions rest signals),
   snd (evaluateOperators value operators) ++
   if fst (evaluateOperators value operators)
   then snd (evaluateConditions rest signals) else []).
Proof.
  intros Hkey Hvalue. simpl. rewrite Hkey.
  destruct value; [congruence| | |];
    (apply console_ext; [rewrite bind_fst|rewrite bind_snd]);
    destruct (fst (evaluateOperators _ operators)); reflexivity.
Qed.

(** Evaluation of a trigger with an unknown operator, against the
    evaluation of the trigger cut off in front of that operator. *)
Lemma evaluateConditions_cut pre key ops1 operator threshold ops2 post signals :
  recognised operator = false ->
  let trigger :=
    pre ++ (key, COperators (ops1 ++ (operator, threshold) :: ops2)) :: post in
  let front := pre ++ [(key, COperators ops1)] in
  (fst (evaluateConditions front signals) = true <->
   exists value,
     fst (evaluateConditions pre signals) = true /\
     signals !! key = Some value /\ value <> VNull /\
     fst (evaluateOperators value ops1) = true) /\
  evaluateConditions trigger signals =
  (false,
   snd (evaluateConditions front signals) ++
   if fst (evaluateConditions front signals)
   then ["Unknown operator: " +:+ operator] else []).
Proof.
  intros Hop trigger front. unfold trigger, front.
  rewrite !evaluateConditions_app.
  destruct (fst (evaluateConditions pre signals)) eqn:Hpre.
  2:{ split.
      - rewrite Hpre. split; [discriminate|]. intros (v & H & _). discriminate.
      - rewrite Hpre, app_nil_r. apply console_ext; [exact Hpre|reflexivity]. }
  destruct (signals !! key) as [value|] eqn:Hkey.
  2:{ rewrite !evaluateConditions_missing by (left; exact Hkey).
      split; [|reflexivity].
      split; [discriminate|]. intros (v & _ & H & _). discriminate. }
  assert (Hnull : value = VNull \/ value <> VNull)
    by (destruct value; [left; reflexivity|right..]; discriminate).
  destruct Hnull as [->|Hvalue].
  { rewrite !evaluateConditions_missing by (right; exact Hkey).
    split; [|reflexivity].
    split; [discriminate|]. intros (v & _ & [= <-] & Hv & _). congruence. }
  rewrite !(evaluateConditions_operators key _ _ signals value Hkey Hvalue).
  rewrite evaluateOperators_app. cbn [evaluateOperators].
  rewrite (compare_unrecognised _ _ _ Hop).
  cbn [evaluateConditions ret bind fst snd].
  destruct (fst (evaluateOperators value ops1)) eqn:H1; cbn [fst snd andb].
  - rewrite (evaluateOperators_true_silent _ _ H1). split; [|reflexivity].
    split; [|reflexivity]. intros _. exists value. auto.
  - split; [|rewrite H1, !app_nil_r; reflexivity].
    split; [discriminate|].
    intros (v & _ & [= <-] & _ & Hv). congruence.
Qed.


(** ** Property lists *)

Section ObjFacts.
Context {V : Type}.
Implicit Types (o : list (string * V)) (f : V -> V) (k : string).

Lemma get_alter_eq f k o : Obj.get k (Obj.alter f k o) = f <$> Obj.get k o.
Proof.
  induction o as [|[k' v] o IH]; simpl; [reflexivity|].
  destruct (String.eqb k k') eqn:Hk; simpl; rewrite Hk; auto.
Qed.

Lemma get_alter_ne f k k' o :
  k <> k' -> Obj.get k' (Obj.alter f k o) = Obj.get k' o.
Proof.
  intros Hne. induction o as [|[k0 v] o IH]; simpl; [reflexivity|].
  destruct (String.eqb k k0) eqn:Hk; simpl; [|rewrite IH; reflexivity].
  apply String.eqb_eq in Hk. subst k0.
  destruct (String.eqb k' k) eqn:Hk'; [|exact IH].
  apply String.eqb_eq in Hk'. congruence.
Qed.

Lemma keys_alter f k o : Obj.keys (Obj.alter f k o) = Obj.keys o.
Proof.
  unfold Obj.keys, Obj.alter. rewrite List.map_map.
  apply List.map_ext. intros [k' v]. simpl.
  destruct (String.eqb k k'); reflexivity.
Qed.

Lemma Forall_alter (P : V -> Prop) f k o :
  (forall v, P v -> P (f v)) ->
  Forall (fun p => P (snd p)) o -> Forall (fun p => P (snd p)) (Obj.alter f k o).
Proof.
  intros Hf Ho. unfold Obj.alter. apply Forall_map.
  eapply Forall_impl; [exact Ho|]. intros [k' v] Hv. simpl in *.
  destruct (String.eqb k k'); simpl; auto.
Qed.
End ObjFacts.

(** ** Elimination is final *)

Lemma eliminate_frozen e target hypothesis :
  frozen hypothesis (hypotheses e) ->
  frozen hypothesis (hypotheses (eliminate e target)).
Proof.
  unfold frozen, eliminate. intros Hf.
  destruct (Obj.get target (hypotheses e)) eqn:Ht; [simpl|assumption].
  destruct (decide (target = hypothesis)) as [->|Hne].
  - rewrite get_alter_eq, Hf. reflexivity.
  - rewrite get_alter_ne by assumption. assumption.
Qed.

Lemma eliminate_causes_frozen e target :
  causes_frozen e -> causes_frozen (eliminate e target).
Proof.
  intros He hypothesis Hin.
  destruct (in_dec String.string_dec hypothesis (eliminatedCauses e))
    as [Hold|Hnew].
  { apply eliminate_frozen, He, Hold. }
  revert Hin. unfold eliminate, frozen.
  destruct (Obj.get target (hypotheses e)) eqn:Ht; simpl; [|tauto].
  destruct (includes (eliminatedCauses e) target); [tauto|].
  intros Hin. apply in_app_or in Hin as [Hin|[<-|[]]]; [tauto|].
  rewrite get_alter_eq, Ht. reflexivity.
Qed.

Lemma applyEliminationRule_causes_frozen signals e rule :
  causes_frozen e -> causes_frozen (fst (applyEliminationRule signals e rule)).
Proof.
  intros He. unfold applyEliminationRule. rewrite bind_fst.
  destruct (fst (evaluateConditions _ _)); simpl; [|assumption].
  change (causes_frozen (fold_left eliminate (er_eliminate rule) e)).
  apply fold_left_invariant; [|assumption].
  intros s a. apply eliminate_causes_frozen.
Qed.

Lemma applyEliminationRules_causes_frozen signals e :
  causes_frozen (fst (applyEliminationRules signals (reset e))).
Proof.
  unfold applyEliminationRules. apply foldM_invariant.
  - intros s a. apply applyEliminationRule_causes_frozen.
  - intros hypothesis [].
Qed.

Lemma applyScore_frozen e entry hypothesis :
  frozen hypothesis (hypotheses e) ->
  frozen hypothesis (hypotheses (applyScore e entry)).
Proof.
  unfold frozen, applyScore. destruct entry as [target scoreChange]. intros Hf.
  destruct (Obj.get target (hypotheses e)) as [data|] eqn:Ht; [|assumption].
  destruct (eliminated data) eqn:Hdata; [assumption|]. simpl.
  destruct (decide (target = hypothesis)) as [->|Hne].
  - rewrite Hf in Ht. injection Ht as <-. discriminate.
  - rewrite get_alter_ne by assumption. assumption.
Qed.

Lemma applyScoringRule_frozen signals e rule hypothesis :
  frozen hypothesis (hypotheses e) ->
  frozen hypothesis (hypotheses (fst (applyScoringRule signals e rule))).
Proof.
  intros Hf. unfold applyScoringRule. rewrite bind_fst.
  destruct (fst (evaluateConditions _ _)); simpl; [|assumption].
  apply (fold_left_invariant (fun e' => frozen hypothesis (hypotheses e')));
    [|assumption].
  intros s a. apply applyScore_frozen.
Qed.

Lemma applyScore_causes e entry :
  eliminatedCauses (applyScore e entry) = eliminatedCauses e.
Proof.
  unfold applyScore. destruct entry as [h d].
  destruct (Obj.get _ _) as [data|]; [destruct (eliminated data)|]; reflexivity.
Qed.

Lemma applyScoringRules_causes signals e :
  eliminatedCauses (fst (applyScoringRules signals e)) = eliminatedCauses e.
Proof.
  unfold applyScoringRules.
  apply (foldM_invariant (fun e' => eliminatedCauses e' = eliminatedCauses e)); auto.
  intros s rule <-. unfold applyScoringRule. rewrite bind_fst.
  destruct (fst (evaluateConditions _ _)); simpl; [|reflexivity].
  apply (fold_left_invariant (fun e' => eliminatedCauses e' = eliminatedCauses s)); auto.
  intros s' a <-. apply applyScore_causes.
Qed.

(** The fields that [calculateResult] copies from the instance. *)
Lemma calculateResult_fields e r :
  calculateResult e = Some r ->
  all_scores r = hypotheses e /\
  eliminated_causes r = eliminatedCauses e /\
  applied_rules r = appliedRules e /\
  evidence r = evidence_of (appliedRules e).
Proof.
  unfold calculateResult.
  destruct (totalScore _ =? 0).
  - intros [= <-]. simpl. auto.
  - destruct (sort_by_confidence _); [discriminate|].
    intros [= <-]. simpl. auto.
Qed.

(** C1. A hypothesis that the elimination stage put on
    [eliminatedCauses] has score 0 and [eliminated = true] when that stage
    ends; no entry of a [then] object and no sequence of scoring rules,
    whatever their deltas and the signals, changes that; and it is so in
    [all_scores] of the result of [analyze]. *)
Theorem eliminated_is_frozen e signals hypothesis :
  let e1 := fst (applyEliminationRules signals (reset e)) in
  In hypothesis (eliminatedCauses e1) ->
  frozen hypothesis (hypotheses e1) /\
  (forall e' scoreChange,
     frozen hypothesis (hypotheses e') ->
     frozen hypothesis (hypotheses (applyScore e' (hypothesis, scoreChange)))) /\
  (forall signals' (later : list ScoringRule),
     frozen hypothesis
       (hypotheses (fst (foldM (applyScoringRule signals') later e1)))) /\
  exists r,
    fst (fst (analyze e signals)) = Some r /\
    frozen hypothesis (all_scores r) /\
    In hypothesis (eliminated_causes r).
Proof.
  intros e1 Hin.
  assert (Hf : frozen hypothesis (hypotheses e1)).
  { apply (applyEliminationRules_causes_frozen signals e). exact Hin. }
  assert (Hlater : forall signals' later,
            frozen hypothesis
              (hypotheses (fst (foldM (applyScoringRule signals') later e1)))).
  { intros signals' later.
    apply (foldM_invariant (fun e' => frozen hypothesis (hypotheses e')));
      [|exact Hf].
    intros s a. apply applyScoringRule_frozen. }
  split; [exact Hf|]. split; [|split; [exact Hlater|]].
  - intros e' scoreChange. apply applyScore_frozen.
  - rewrite analyze_fst. cbv zeta. fold e1. simpl.
    destruct (calculateResult_is_Some (fst (applyScoringRules signals e1)))
      as [r Hr].
    exists r. split; [exact Hr|].
    destruct (calculateResult_fields _ _ Hr) as (-> & -> & _).
    split.
    + apply Hlater.
    + rewrite applyScoringRules_causes. exact Hin.
Qed.

(** ** Scores stay non-negative *)

Lemma add_score_nonneg scoreChange data : 0 <= score (add_score scoreChange data).
Proof.
  unfold add_score. simpl.
  destruct (score data + scoreChange <? 0) eqn:Hlt; [lia|].
  apply Z.ltb_ge in Hlt. exact Hlt.
Qed.

Lemma add_score_max scoreChange data :
  score (add_score scoreChange data) = Z.max 0 (score data + scoreChange).
Proof.
  unfold add_score. simpl.
  destruct (score data + scoreChange <? 0) eqn:Hlt.
  - apply Z.ltb_lt in Hlt. lia.
  - apply Z.ltb_ge in Hlt. lia.
Qed.

Lemma deep_copy_nonneg declared :
  Forall (fun p => 0 <= snd p) declared -> nonneg_scores (deep_copy declared).
Proof.
  intros H. unfold nonneg_scores, deep_copy. apply Forall_map.
  eapply Forall_impl; [exact H|]. auto.
Qed.

Lemma eliminate_nonneg e target :
  nonneg_scores (hypotheses e) -> nonneg_scores (hypotheses (eliminate e target)).
Proof.
  intros H. unfold eliminate.
  destruct (Obj.get target (hypotheses e)); [simpl|assumption].
  unfold nonneg_scores.
  apply (Forall_alter (fun d => 0 <= score d)); [simpl; lia|exact H].
Qed.

Lemma applyScore_nonneg e entry :
  nonneg_scores (hypotheses e) -> nonneg_scores (hypotheses (applyScore e entry)).
Proof.
  intros H. unfold applyScore. destruct entry as [target scoreChange].
  destruct (Obj.get target (hypotheses e)) as [data|]; [|assumption].
  destruct (eliminated data); [assumption|]. simpl.
  apply (Forall_alter (fun d => 0 <= score d)); [|exact H].
  intros v _. apply add_score_nonneg.
Qed.

Lemma applyEliminationRule_nonneg signals e rule :
  nonneg_scores (hypotheses e) ->
  nonneg_scores (hypotheses (fst (applyEliminationRule signals e rule))).
Proof.
  intros H. unfold applyEliminationRule. rewrite bind_fst.
  destruct (fst (evaluateConditions _ _)); simpl; [|assumption].
  apply (fold_left_invariant (fun e' => nonneg_scores (hypotheses e')));
    [|assumption].
  intros s a. apply eliminate_nonneg.
Qed.

Lemma applyScoringRule_nonneg signals e rule :
  nonneg_scores (hypotheses e) ->
  nonneg_scores (hypotheses (fst (applyScoringRule signals e rule))).
Proof.
  intros H. unfold applyScoringRule. rewrite bind_fst.
  destruct (fst (evaluateConditions _ _)); simpl; [|assumption].
  apply (fold_left_invariant (fun e' => nonneg_scores (hypotheses e')));
    [|assumption].
  intros s a. apply applyScore_nonneg.
Qed.

(** Scenario D of the specification: 10, lowered by 5 and then by 20,
    ends at 0. *)
Example negative_clamp_scenario :
  all_scores <$> fst (fst (analyze (new clamp_rules) clamp_signals)) =
  Some [("dns", {| score := 0; eliminated := false |});
        ("network", {| score := 5; eliminated := false |})].
Proof. vm_compute. reflexivity. Qed.

(** ** Independence of earlier calls *)

Lemma reset_rules e e' : this_rules e = this_rules e' -> reset e = reset e'.
Proof. unfold reset. intros ->. reflexivity. Qed.

Lemma analyze_rules e signals :
  this_rules (snd (fst (analyze e signals))) = this_rules e.
Proof.
  rewrite analyze_fst. simpl.
  rewrite applyScoringRules_rules, applyEliminationRules_rules. reflexivity.
Qed.

Lemma analyze_fresh e e' signals :
  this_rules e' = this_rules e -> analyze e' signals = analyze e signals.
Proof.
  intros Hrules. unfold analyze. rewrite (reset_rules e' e Hrules). reflexivity.
Qed.

(** ** The verdict when nothing scores *)

(** C3 (amended). When the scores of the hypotheses that are not
    eliminated sum to 0, [analyze] returns the unknown verdict: cause
    "unknown", 0 percent, level "Low", the explanations of the applied
    scoring rules in order as evidence, the eliminated causes as
    collected, and the two generic next steps. *)
Theorem zero_total_is_unknown e signals :
  let e2 := snd (fst (analyze e signals)) in
  totalScore (activeHypotheses (hypotheses e2)) = 0 ->
  exists r,
    fst (fst (analyze e signals)) = Some r /\
    primary_cause r = "unknown" /\
    confidence_percent r = 0 /\
    confidence_level r = "Low" /\
    evidence r = List.map ar_explanation (List.filter is_scoring (appliedRules e2)) /\
    eliminated_causes r = eliminatedCauses e2 /\
    next_steps r = ["Collect more diagnostic data"; "Run additional tests"] /\
    raw_score r = None /\
    all_hypotheses r = None /\
    all_scores r = hypotheses e2 /\
    applied_rules r = appliedRules e2.
Proof.
  rewrite analyze_fst. cbv zeta. simpl.
  set (e2 := fst (applyScoringRules signals _)).
  intros Htotal. unfold calculateResult. rewrite Htotal. simpl.
  eexists. split; [reflexivity|]. simpl. repeat split; reflexivity.
Qed.

(** ** Rounding *)

Lemma Math_round_nearest num den :
  0 < den ->
  2 * den * JS.Math_round num den - den <= 2 * num
  < 2 * den * JS.Math_round num den + den.
Proof.
  intros Hden. unfold JS.Math_round.
  pose proof (Z.div_mod (2 * num + den) (2 * den)) as Hdm.
  pose proof (Z.mod_pos_bound (2 * num + den) (2 * den)) as Hmod.
  lia.
Qed.

Lemma Math_round_unique num den r :
  0 < den ->
  2 * den * r - den <= 2 * num < 2 * den * r + den ->
  r = JS.Math_round num den.
Proof.
  intros Hden Hr. pose proof (Math_round_nearest num den Hden) as Hm. nia.
Qed.

Lemma Math_round_half_away num den :
  0 < den -> 0 <= num ->
  JS.Math_round num den = round_half_away_from_zero num den.
Proof.
  intros Hden Hnum. unfold round_half_away_from_zero.
  rewrite (Z.abs_eq num), (Z.abs_eq den), (Z.sgn_pos den) by lia.
  destruct (Z.eq_dec num 0) as [->|Hne].
  - unfold JS.Math_round. simpl. rewrite Z.div_small; lia.
  - rewrite Z.sgn_pos by lia. unfold JS.Math_round. lia.
Qed.

(** ** The sum of the percentages *)

Lemma sum_percent_normalize total active :
  0 < total ->
  let l := List.map (normalize total) active in
  2 * total * sum_percent l - Z.of_nat (length l) * total
  <= 200 * totalScore active
  <= 2 * total * sum_percent l + Z.of_nat (length l) * total.
Proof.
  intros Htotal. induction active as [|h active IH]; [simpl; unfold totalScore; simpl; lia|].
  cbv zeta in *. rewrite totalScore_cons.
  change (List.map (normalize total) (h :: active))
    with (normalize total h :: List.map (normalize total) active).
  change (sum_percent (normalize total h :: List.map (normalize total) active))
    with (JS.Math_round (snd h * 100) total
          + sum_percent (List.map (normalize total) active)).
  rewrite length_cons, Nat2Z.inj_succ.
  pose proof (Math_round_nearest (snd h * 100) total Htotal) as Hh.
  lia.
Qed.

Lemma sum_percent_Permutation l l' :
  Permutation l l' -> sum_percent l = sum_percent l'.
Proof.
  induction 1; simpl; try lia.
Qed.

(** ** Sorting *)

Lemma insert_by_confidence_Permutation a l :
  Permutation (insert_by_confidence a l) (a :: l).
Proof.
  induction l as [|b l IH]; simpl; [reflexivity|].
  destruct (_ <? _); [|reflexivity].
  rewrite IH. apply perm_swap.
Qed.

Lemma sort_by_confidence_Permutation l :
  Permutation (sort_by_confidence l) l.
Proof.
  induction l as [|a l IH]; simpl; [reflexivity|].
  rewrite insert_by_confidence_Permutation, IH. reflexivity.
Qed.

Lemma insert_by_confidence_sorted a l :
  StronglySorted descending l ->
  StronglySorted descending (insert_by_confidence a l).
Proof.
  induction 1 as [|b l Hl IH Hb]; simpl.
  - repeat constructor.
  - destruct (n_confidence_percent a <? n_confidence_percent b) eqn:Hlt.
    + apply Z.ltb_lt in Hlt. constructor; [exact IH|].
      rewrite insert_by_confidence_Permutation.
      constructor; [unfold descending; lia|exact Hb].
    + apply Z.ltb_ge in Hlt. constructor; [constructor; assumption|].
      constructor; [exact Hlt|].
      eapply Forall_impl; [exact Hb|]. unfold descending. simpl. lia.
Qed.

Lemma sort_by_confidence_sorted l :
  StronglySorted descending (sort_by_confidence l).
Proof.
  induction l as [|a l IH]; simpl; [constructor|].
  apply insert_by_confidence_sorted, IH.
Qed.

(** Stability: the entries of one percentage keep their order. *)
Lemma insert_by_confidence_stable percent a l :
  List.filter (has_percent percent) (insert_by_confidence a l) =
  List.filter (has_percent percent) (a :: l).
Proof.
  induction l as [|b l IH]; [reflexivity|].
  simpl insert_by_confidence.
  destruct (n_confidence_percent a <? n_confidence_percent b) eqn:Hlt;
    [|reflexivity].
  apply Z.ltb_lt in Hlt.
  change (List.filter (has_percent percent) (b :: insert_by_confidence a l))
    with (if has_percent percent b
          then b :: List.filter (has_percent percent) (insert_by_confidence a l)
          else List.filter (has_percent percent) (insert_by_confidence a l)).
  rewrite IH. simpl. unfold has_percent.
  destruct (n_confidence_percent a =? percent) eqn:Ha;
    destruct (n_confidence_percent b =? percent) eqn:Hb; try reflexivity.
  apply Z.eqb_eq in Ha, Hb. lia.
Qed.

Lemma sort_by_confidence_stable percent l :
  List.filter (has_percent percent) (sort_by_confidence l) =
  List.filter (has_percent percent) l.
Proof.
  induction l as [|a l IH]; [reflexivity|].
  simpl sort_by_confidence. rewrite insert_by_confidence_stable.
  simpl. rewrite IH. reflexivity.
Qed.

(** ** The ranked result *)

(** The result when the total is not 0. *)
Lemma calculateResult_ranked e :
  let active := activeHypotheses (hypotheses e) in
  let total := totalScore active in
  total <> 0 ->
  exists r primary rest,
    calculateResult e = Some r /\
    sort_by_confidence (List.map (normalize total) active) = primary :: rest /\
    all_hypotheses r = Some (primary :: rest) /\
    primary_cause r = name primary /\
    confidence_percent r = n_confidence_percent primary /\
    raw_score r = Some (n_score primary).
Proof.
  intros active total Htotal. unfold calculateResult.
  fold active. fold total.
  destruct (total =? 0) eqn:Hz; [apply Z.eqb_eq in Hz; contradiction|].
  destruct (sort_by_confidence (List.map (normalize total) active))
    as [|primary rest] eqn:Hsort.
  - exfalso. destruct active as [|h active']; [apply Htotal; reflexivity|].
    simpl in Hsort.
    destruct (insert_by_confidence_cons (normalize total h)
                (sort_by_confidence (List.map (normalize total) active')))
      as [b [l' Hins]].
    congruence.
  - eexists _, primary, rest. split; [reflexivity|]. simpl. auto.
Qed.

Lemma deep_copy_keys declared : Obj.keys (deep_copy declared) = Obj.keys declared.
Proof.
  unfold Obj.keys, deep_copy. rewrite List.map_map. reflexivity.
Qed.

Lemma eliminate_keys e target :
  Obj.keys (hypotheses (eliminate e target)) = Obj.keys (hypotheses e).
Proof.
  unfold eliminate. destruct (Obj.get _ _); [simpl|reflexivity].
  apply keys_alter.
Qed.

Lemma applyScore_keys e entry :
  Obj.keys (hypotheses (applyScore e entry)) = Obj.keys (hypotheses e).
Proof.
  unfold applyScore. destruct entry as [h d].
  destruct (Obj.get _ _) as [data|]; [destruct (eliminated data)|];
    try reflexivity.
  simpl. apply keys_alter.
Qed.

(** The stages neither add, drop nor reorder the keys of the snapshot. *)
Lemma analyze_keys e signals :
  Obj.keys (hypotheses (snd (fst (analyze e signals)))) =
  Obj.keys (rs_hypotheses (this_rules e)).
Proof.
  rewrite analyze_fst. simpl.
  set (same e' := Obj.keys (hypotheses e') = Obj.keys (rs_hypotheses (this_rules e))).
  assert (Hreset : same (reset e)) by apply deep_copy_keys.
  assert (Helim : same (fst (applyEliminationRules signals (reset e)))).
  { unfold applyEliminationRules. apply foldM_invariant; [|exact Hreset].
    intros s rule Hs. unfold applyEliminationRule. rewrite bind_fst.
    destruct (fst (evaluateConditions _ _)); simpl; [|exact Hs].
    apply (fold_left_invariant same); [|exact Hs].
    intros s' a Hs'. unfold same. rewrite eliminate_keys. exact Hs'. }
  unfold applyScoringRules. apply (foldM_invariant same); [|exact Helim].
  intros s rule Hs. unfold applyScoringRule. rewrite bind_fst.
  destruct (fst (evaluateConditions _ _)); simpl; [|exact Hs].
  apply (fold_left_invariant same); [|exact Hs].
  intros s' a Hs'. unfold same. rewrite applyScore_keys. exact Hs'.
Qed.

Lemma activeHypotheses_names hyps :
  List.map fst (activeHypotheses hyps) =
  List.map fst (List.filter (fun p => negb (eliminated (snd p))) hyps).
Proof. unfold activeHypotheses. rewrite List.map_map. reflexivity. Qed.

Lemma normalize_names total active :
  List.map (fun h => (name h, n_score h)) (List.map (normalize total) active) =
  active.
Proof.
  rewrite List.map_map. simpl.
  induction active as [|[n s] active IH]; simpl; [reflexivity|].
  rewrite IH. reflexivity.
Qed.

Lemma filter_first {A} (f : A -> bool) l x t :
  List.filter f l = x :: t ->
  exists before after,
    l = before ++ x :: after /\ Forall (fun y => f y = false) before.
Proof.
  induction l as [|y l IH]; simpl; [discriminate|].
  destruct (f y) eqn:Hy.
  - intros [= -> <-]. exists [], l. split; [reflexivity|constructor].
  - intros Ht. destruct (IH Ht) as (before & after & -> & Hb).
    exists (y :: before), after. split; [reflexivity|].
    constructor; assumption.
Qed.

(** C7. When the total of the active scores is positive, the ranked
    list is the list [declared] of the active hypotheses in the key order
    of [rules.hypotheses], sorted by descending percentage with the
    entries of equal percentage left in their declared order; the primary
    cause is the first declared hypothesis that has the largest
    percentage. *)
Theorem ranking_is_stable e signals :
  let e2 := snd (fst (analyze e signals)) in
  let active := activeHypotheses (hypotheses e2) in
  let total := totalScore active in
  0 < total ->
  let declared := List.map (normalize total) active in
  List.map name declared =
    List.map fst (List.filter (fun p => negb (eliminated (snd p))) (hypotheses e2)) /\
  Obj.keys (hypotheses e2) = Obj.keys (rs_hypotheses (this_rules e)) /\
  exists r ranked,
    fst (fst (analyze e signals)) = Some r /\
    all_hypotheses r = Some ranked /\
    Permutation ranked declared /\
    StronglySorted descending ranked /\
    (forall percent,
       List.filter (has_percent percent) ranked =
       List.filter (has_percent percent) declared) /\
    exists before first after,
      declared = before ++ first :: after /\
      primary_cause r = name first /\
      confidence_percent r = n_confidence_percent first /\
      Forall (fun h => n_confidence_percent h < n_confidence_percent first) before /\
      Forall (fun h => n_confidence_percent h <= n_confidence_percent first) after.
Proof.
  intros e2 active total Htotal declared.
  split.
  { unfold declared. rewrite List.map_map. simpl.
    apply activeHypotheses_names. }
  split; [apply analyze_keys|].
  destruct (calculateResult_ranked e2)
    as (r & primary & rest & Hr & Hsort & Hall & Hcause & Hpercent & _).
  { fold active. fold total. lia. }
  fold active in Hsort. fold total in Hsort. fold declared in Hsort.
  exists r, (primary :: rest).
  assert (Hperm : Permutation (primary :: rest) declared).
  { rewrite <- Hsort. apply sort_by_confidence_Permutation. }
  assert (Hsorted : StronglySorted descending (primary :: rest)).
  { rewrite <- Hsort. apply sort_by_confidence_sorted. }
  assert (Hstable : forall percent,
            List.filter (has_percent percent) (primary :: rest) =
            List.filter (has_percent percent) declared).
  { intros percent. rewrite <- Hsort. apply sort_by_confidence_stable. }
  split.
  { unfold e2 in Hr. rewrite analyze_fst in *. exact Hr. }
  split; [exact Hall|]. split; [exact Hperm|]. split; [exact Hsorted|].
  split; [exact Hstable|].
  assert (Hmax : Forall (fun h => n_confidence_percent h <= n_confidence_percent primary)
                   declared).
  { rewrite <- Hperm. apply StronglySorted_inv in Hsorted as [_ Hrest].
    constructor; [lia|exact Hrest]. }
  specialize (Hstable (n_confidence_percent primary)).
  simpl in Hstable. unfold has_percent at 1 in Hstable.
  rewrite Z.eqb_refl in Hstable. symmetry in Hstable.
  apply filter_first in Hstable as (before & after & Hsplit & Hbefore).
  exists before, primary, after.
  split; [exact Hsplit|]. split; [exact Hcause|]. split; [exact Hpercent|].
  rewrite Hsplit in Hmax. apply Forall_app in Hmax as [Hmax_before Hmax_after].
  split.
  - apply Forall_forall. intros h Hh.
    pose proof (proj1 (Forall_forall _ _) Hmax_before h Hh) as Hle.
    pose proof (proj1 (Forall_forall _ _) Hbefore h Hh) as Hne.
    unfold has_percent in Hne. apply Z.eqb_neq in Hne. simpl in Hle. lia.
  - apply Forall_inv_tail in Hmax_after. exact Hmax_after.
Qed.

(** ** Results in the store *)

Section Store.
Variables (i : Instance) (store : list Object).

Let a := length store.
Let i' := {| i_rules := i_rules i;
             i_hypotheses := a;
             i_eliminatedCauses := S a;
             i_appliedRules := S (S a) |}.

(** A stage leaves the length of the store and the objects of other
    addresses alone, and its writes are read back. *)
Lemma commit_length e st : length (commit i' e st) = length st.
Proof. unfold commit. rewrite !length_insert. reflexivity. Qed.

Lemma commit_frame e st b : (b < a)%nat -> commit i' e st !! b = st !! b.
Proof.
  intros Hb. unfold commit. simpl.
  rewrite !list_lookup_insert_ne by (unfold a in *; lia). reflexivity.
Qed.

Lemma contents_commit e st :
  (S (S a) < length st)%nat -> this_rules e = i_rules i ->
  contents i' (commit i' e st) = e.
Proof.
  intros Hlen Hrules. destruct e as [r h c ap]. simpl in Hrules. subst r.
  unfold contents, commit, snapshot_at, names_at, applied_at. simpl.
  rewrite list_lookup_insert_eq by (rewrite !length_insert; lia).
  rewrite list_lookup_insert_ne by lia.
  rewrite list_lookup_insert_eq by (rewrite !length_insert; lia).
  rewrite !list_lookup_insert_ne by lia.
  rewrite list_lookup_insert_eq by lia.
  reflexivity.
Qed.

Lemma contents_fresh :
  contents i'
    (store ++ [OSnapshot (deep_copy (rs_hypotheses (i_rules i)));
               ONames []; OApplied []]) =
  reset (contents i store).
Proof.
  unfold contents, reset, snapshot_at, names_at, applied_at. simpl.
  rewrite !lookup_app_r by (unfold a; lia).
  replace (a - length store)%nat with 0%nat by (unfold a; lia).
  replace (S a - length store)%nat with 1%nat by (unfold a; lia).
  replace (S (S a) - length store)%nat with 2%nat by (unfold a; lia).
  reflexivity.
Qed.

(** [analyze] on an instance computes what [analyze] computes on the
    fields of the instance; it writes to the three new objects only. *)
Lemma analyze_in_store_spec signals :
  exists store',
    fst (analyze_in_store i signals store) =
      (option_map
         (fun r => {| own := r; all_scores_at := a;
                      eliminated_causes_at := S a;
                      applied_rules_at := S (S a) |})
         (fst (fst (analyze (contents i store) signals))),
       i', store') /\
    length store' = (length store + 3)%nat /\
    (forall b, (b < a)%nat -> store' !! b = store !! b) /\
    contents i' store' = snd (fst (analyze (contents i store) signals)) /\
    snd (analyze_in_store i signals store) =
      snd (analyze (contents i store) signals).
Proof.
  set (store0 := store ++ [OSnapshot (deep_copy (rs_hypotheses (i_rules i)));
                           ONames []; OApplied []]).
  set (e1 := fst (applyEliminationRules signals (reset (contents i store)))).
  set (e2 := fst (applyScoringRules signals e1)).
  assert (Hlen0 : length store0 = (length store + 3)%nat).
  { unfold store0. rewrite length_app. reflexivity. }
  assert (H1 : this_rules e1 = i_rules i).
  { unfold e1. rewrite applyEliminationRules_rules. reflexivity. }
  assert (H2 : this_rules e2 = i_rules i).
  { unfold e2. rewrite applyScoringRules_rules. exact H1. }
  assert (Hc1 : contents i' (commit i' e1 store0) = e1).
  { apply contents_commit; [unfold a; lia|exact H1]. }
  assert (Hc2 : contents i' (commit i' e2 (commit i' e1 store0)) = e2).
  { apply contents_commit; [rewrite commit_length; unfold a; lia|exact H2]. }
  exists (commit i' e2 (commit i' e1 store0)).
  assert (Hfresh : contents i' store0 = reset (contents i store))
    by apply contents_fresh.
  split; [|split; [|split; [|split]]].
  - unfold analyze_in_store, in_place. fold a. fold i'. fold store0. cbv zeta.
    repeat (rewrite bind_fst; cbv beta; unfold ret; cbn [fst snd]).
    rewrite !Hfresh. fold e1. rewrite !Hc1. fold e2. rewrite !Hc2.
    rewrite analyze_fst. reflexivity.
  - rewrite !commit_length. exact Hlen0.
  - intros b Hb. rewrite !commit_frame by exact Hb.
    unfold store0. apply lookup_app_l. exact Hb.
  - rewrite Hc2, analyze_fst. reflexivity.
  - rewrite analyze_snd.
    unfold analyze_in_store, in_place. fold a. fold i'. fold store0. cbv zeta.
    repeat (rewrite ?bind_snd, ?bind_fst; cbv beta; unfold ret; cbn [fst snd]).
    rewrite !Hfresh. fold e1. rewrite !Hc1.
    rewrite !app_nil_r. reflexivity.
Qed.

End Store.


Lemma observe_frame store store' r :
  store' !! all_scores_at r = store !! all_scores_at r ->
  store' !! eliminated_causes_at r = store !! eliminated_causes_at r ->
  store' !! applied_rules_at r = store !! applied_rules_at r ->
  observe store' r = observe store r.
Proof.
  intros H1 H2 H3. unfold observe, snapshot_at, names_at, applied_at.
  rewrite H1, H2, H3. reflexivity.
Qed.

(** Right after the call the returned object reads as the result of
    [calculateResult]. *)
Lemma observe_own i store r :
  calculateResult (contents i store) = Some r ->
  observe store {| own := r;
                   all_scores_at := i_hypotheses i;
                   eliminated_causes_at := i_eliminatedCauses i;
                   applied_rules_at := i_appliedRules i |} = r.
Proof.
  intros Hr. destruct (calculateResult_fields _ _ Hr) as (Hs & Hc & Ha & _).
  destruct r. simpl in *. unfold observe. simpl. congruence.
Qed.


(** * Sample inputs *)

(** ** The properties at sample inputs *)

Lemma eliminated_is_frozen_witness :
  In "cpu" (eliminatedCauses
              (fst (applyEliminationRules revive_signals (reset (new revive_rules))))) /\
  exists r,
    fst (fst (analyze (new revive_rules) revive_signals)) = Some r /\
    frozen "cpu" (all_scores r) /\
    In "cpu" (eliminated_causes r).
Proof.
  assert (H : In "cpu"
                (eliminatedCauses
                   (fst (applyEliminationRules revive_signals
                           (reset (new revive_rules))))))
    by (vm_compute; left; reflexivity).
  split; [exact H|].
  exact (proj2 (proj2 (proj2
           (eliminated_is_frozen (new revive_rules) revive_signals "cpu" H)))).
Defined.

Lemma zero_total_is_unknown_witness :
  totalScore
    (activeHypotheses
       (hypotheses
          (snd (fst (analyze (new (no_rules [("dns", 0); ("cpu", 0)])) ∅))))) = 0 /\
  exists r,
    fst (fst (analyze (new (no_rules [("dns", 0); ("cpu", 0)])) ∅)) = Some r /\
    primary_cause r = "unknown" /\
    confidence_percent r = 0 /\
    confidence_level r = "Low".
Proof.
  assert (H : totalScore
                (activeHypotheses
                   (hypotheses
                      (snd (fst (analyze (new (no_rules [("dns", 0); ("cpu", 0)]))
                                   ∅))))) = 0)
    by (vm_compute; reflexivity).
  split; [exact H|].
  destruct (zero_total_is_unknown (new (no_rules [("dns", 0); ("cpu", 0)])) ∅ H)
    as (r & Hr & Hcause & Hpercent & Hlevel & _).
  exists r. auto.
Defined.

Lemma scalar_condition_strict_witness :
  scalar_value (CString "everyone") = Some (VStr "everyone") /\
  revive_signals !! "affected_users" = Some (VStr "everyone") /\
  (fst (evaluateConditions [("affected_users", CString "everyone")] revive_signals)
   = true <-> VStr "everyone" = VStr "everyone").
Proof.
  assert (H1 : scalar_value (CString "everyone") = Some (VStr "everyone"))
    by reflexivity.
  assert (H2 : revive_signals !! "affected_users" = Some (VStr "everyone"))
    by (vm_compute; reflexivity).
  split; [exact H1|]. split; [exact H2|].
  exact (proj1 (scalar_condition_strict "affected_users" (CString "everyone")
                  (VStr "everyone") [] revive_signals (VStr "everyone") H1 H2)).
Defined.

Lemma ranking_is_stable_witness :
  0 < totalScore
        (activeHypotheses
           (hypotheses (snd (fst (analyze (new tie_rules) tie_signals))))) /\
  exists r ranked,
    fst (fst (analyze (new tie_rules) tie_signals)) = Some r /\
    all_hypotheses r = Some ranked /\
    StronglySorted descending ranked.
Proof.
  assert (H : 0 < totalScore
                    (activeHypotheses
                       (hypotheses
                          (snd (fst (analyze (new tie_rules) tie_signals))))))
    by (vm_compute; reflexivity).
  split; [exact H|].
  destruct (ranking_is_stable (new tie_rules) tie_signals H)
    as (_ & _ & r & ranked & Hr & Hall & _ & Hsorted & _).
  exists r, ranked. auto.
Defined.


Lemma missing_signal_fails_witness :
  In "vpn_in_use"
    (List.map fst [("dns_cached", CBoolean true); ("vpn_in_use", CBoolean true)]) /\
  clamp_signals !! "vpn_in_use" = None /\
  fst (evaluateConditions
         [("dns_cached", CBoolean true); ("vpn_in_use", CBoolean true)]
         clamp_signals) = false.
Proof.
  assert (H1 : In "vpn_in_use"
                 (List.map fst [("dns_cached", CBoolean true);
                                ("vpn_in_use", CBoolean true)]))
    by (simpl; right; left; reflexivity).
  assert (H2 : clamp_signals !! "vpn_in_use" = None) by (vm_compute; reflexivity).
  split; [exact H1|]. split; [exact H2|].
  exact (proj1 (missing_signal_fails
                  [("dns_cached", CBoolean true); ("vpn_in_use", CBoolean true)]
                  "vpn_in_use" clamp_signals H1 H2)).
Defined.

Lemma null_signal_is_missing_witness :
  (<["load_average" := VNull]> light_load : Signals) !! "load_average" = Some VNull /\
  fst (evaluateConditions [("load_average", COperators [("<=", 0)])]
         (<["load_average" := VNull]> light_load)) = false.
Proof.
  assert (H : (<["load_average" := VNull]> light_load : Signals) !! "load_average"
              = Some VNull) by (vm_compute; reflexivity).
  split; [exact H|].
  apply (proj2 (null_signal_is_missing [("load_average", COperators [("<=", 0)])]
                  "load_average" (<["load_average" := VNull]> light_load) H)).
  simpl. left. reflexivity.
Defined.

(** Scenario B of the specification: [network] and [dns] tie at 36
    percent, and [network], which is declared first, is ranked first. *)
Example tie_break_scenario :
  (fst (fst (analyze (new tie_rules) tie_signals)) ≫= all_hypotheses) =
  Some [ {| name := "network"; n_score := 20; n_confidence_percent := 36 |};
         {| name := "dns"; n_score := 20; n_confidence_percent := 36 |};
         {| name := "disk"; n_score := 15; n_confidence_percent := 27 |} ].
Proof. vm_compute. reflexivity. Qed.

(** Scenario C of the specification: the condition [{">>": 5}] on a
    present signal fails with one warning, and the analysis returns the
    result that the untouched scores give. *)
Example unknown_operator_scenario :
  evaluateConditions [("load_average", COperators [(">>", 5)])] heavy_load =
    (false, ["Unknown operator: >>"]) /\
  primary_cause <$> fst (fst (analyze (new unknown_operator_rules) heavy_load)) =
    Some "cpu" /\
  snd (analyze (new unknown_operator_rules) heavy_load) =
    ["Unknown operator: >>"].
Proof. repeat split; vm_compute; reflexivity. Qed.

(** [StringToNumber] and the two equalities on a few values. *)
Example coercions :
  JS.StringToNumber " 42 " = Some 42 /\
  JS.StringToNumber "-7" = Some (-7) /\
  JS.StringToNumber "" = Some 0 /\
  JS.StringToNumber "multiple" = None /\
  JS.loose_eq (VBool true) (VNum 1) = true /\
  JS.strict_eq (VBool true) (VNum 1) = false /\
  JS.loose_eq (VStr "multiple") (VNum 0) = false /\
  JS.gt (VStr "12") 5 = true.
Proof. repeat split; vm_compute; reflexivity. Qed.

(** ** Where the code departs from the specification *)

(** C3 as stated fails: in the unknown verdict [next_steps] has two
    entries, not three. *)
Lemma unknown_next_steps_counterexample :
  totalScore
    (activeHypotheses
       (hypotheses (snd (fst (analyze (new (no_rules [("dns", 0)])) ∅))))) = 0 /\
  next_steps <$> fst (fst (analyze (new (no_rules [("dns", 0)])) ∅)) =
    Some ["Collect more diagnostic data"; "Run additional tests"] /\
  ~ (exists a b c,
       next_steps <$> fst (fst (analyze (new (no_rules [("dns", 0)])) ∅)) =
       Some [a; b; c]).
Proof.
  split; [vm_compute; reflexivity|].
  split; [vm_compute; reflexivity|].
  intros (a & b & c & H). vm_compute in H. discriminate H.
Qed.

(** C4 as stated fails: the number 5 is loosely equal to the string "5",
    and does not satisfy the scalar condition ["5"]. *)
Lemma loose_equality_counterexample :
  scalar_value (CString "5") = Some (VStr "5") /\
  ({[ "retries" := VNum 5 ]} : Signals) !! "retries" = Some (VNum 5) /\
  JS.loose_eq (VNum 5) (VStr "5") = true /\
  fst (evaluateConditions [("retries", CString "5")] {[ "retries" := VNum 5 ]})
  = false.
Proof. repeat split; vm_compute; reflexivity. Qed.


(** * Further properties of the engine *)

(** ** The log of applied rules *)

Lemma eliminate_applied e target :
  appliedRules (eliminate e target) = appliedRules e.
Proof. unfold eliminate. destruct (Obj.get _ _); reflexivity. Qed.

Lemma applyScore_applied e entry :
  appliedRules (applyScore e entry) = appliedRules e.
Proof.
  unfold applyScore. destruct entry as [h d].
  destruct (Obj.get _ _) as [data|]; [destruct (eliminated data)|]; reflexivity.
Qed.

Lemma applyEliminationRule_applied signals e rule :
  appliedRules (fst (applyEliminationRule signals e rule)) =
  appliedRules e ++
  (if matches signals (er_if rule) then [elimination_record rule] else []).
Proof.
  unfold applyEliminationRule, matches. rewrite bind_fst.
  destruct (fst (evaluateConditions _ _)); simpl; [|rewrite app_nil_r; reflexivity].
  f_equal.
  apply (fold_left_invariant (fun e' => appliedRules e' = appliedRules e)); auto.
  intros s a <-. apply eliminate_applied.
Qed.

Lemma applyScoringRule_applied signals e rule :
  appliedRules (fst (applyScoringRule signals e rule)) =
  appliedRules e ++
  (if matches signals (sr_if rule) then [scoring_record rule] else []).
Proof.
  unfold applyScoringRule, matches. rewrite bind_fst.
  destruct (fst (evaluateConditions _ _)); simpl; [|rewrite app_nil_r; reflexivity].
  f_equal.
  apply (fold_left_invariant (fun e' => appliedRules e' = appliedRules e)); auto.
  intros s a <-. apply applyScore_applied.
Qed.

Lemma foldM_applied {A} (step : Engine -> A -> Console Engine)
    (f : A -> bool) (g : A -> AppliedRule) :
  (forall e a,
     appliedRules (fst (step e a)) =
     appliedRules e ++ (if f a then [g a] else [])) ->
  forall l e,
    appliedRules (fst (foldM step l e)) =
    appliedRules e ++ List.map g (List.filter f l).
Proof.
  intros Hstep l. induction l as [|a l IH]; intros e; simpl.
  - rewrite app_nil_r. reflexivity.
  - rewrite bind_fst, IH, Hstep, <- app_assoc. f_equal.
    destruct (f a); reflexivity.
Qed.

Lemma analyze_applied e signals :
  appliedRules (snd (fst (analyze e signals))) =
  List.map elimination_record
    (List.filter (fun rule => matches signals (er_if rule))
       (elimination_rules (this_rules e))) ++
  List.map scoring_record
    (List.filter (fun rule => matches signals (sr_if rule))
       (rules (this_rules e))).
Proof.
  rewrite analyze_fst. simpl.
  unfold applyScoringRules.
  rewrite (foldM_applied (applyScoringRule signals)
             (fun rule => matches signals (sr_if rule)) scoring_record)
    by (intros; apply applyScoringRule_applied).
  rewrite applyEliminationRules_rules.
  unfold applyEliminationRules.
  rewrite (foldM_applied (applyEliminationRule signals)
             (fun rule => matches signals (er_if rule)) elimination_record)
    by (intros; apply applyEliminationRule_applied).
  reflexivity.
Qed.

(** The result that [analyze] returns, with the fields it copies. *)
Lemma analyze_result e signals :
  exists r,
    fst (fst (analyze e signals)) = Some r /\
    all_scores r = hypotheses (snd (fst (analyze e signals))) /\
    eliminated_causes r = eliminatedCauses (snd (fst (analyze e signals))) /\
    applied_rules r = appliedRules (snd (fst (analyze e signals))) /\
    evidence r = evidence_of (appliedRules (snd (fst (analyze e signals)))).
Proof.
  rewrite analyze_fst. cbv zeta. cbn [fst snd].
  destruct (calculateResult_is_Some
              (fst (applyScoringRules signals
                      (fst (applyEliminationRules signals (reset e))))))
    as [r Hr].
  exists r. split; [exact Hr|]. apply calculateResult_fields. exact Hr.
Qed.

(** X1. The log of applied rules is made of one record for every
    elimination rule whose trigger matches, in declaration order,
    followed by one record for every scoring rule whose trigger matches,
    in declaration order; whether a rule changed a score plays no role. *)
Theorem applied_rules_log e signals :
  exists r,
    fst (fst (analyze e signals)) = Some r /\
    applied_rules r =
      List.map elimination_record
        (List.filter (fun rule => matches signals (er_if rule))
           (elimination_rules (this_rules e))) ++
      List.map scoring_record
        (List.filter (fun rule => matches signals (sr_if rule))
           (rules (this_rules e))).
Proof.
  destruct (analyze_result e signals) as (r & Hr & _ & _ & Ha & _).
  exists r. split; [exact Hr|]. rewrite Ha. apply analyze_applied.
Qed.

Lemma evidence_of_app l1 l2 :
  evidence_of (l1 ++ l2) = evidence_of l1 ++ evidence_of l2.
Proof. unfold evidence_of. rewrite List.filter_app, List.map_app. reflexivity. Qed.

Lemma evidence_of_eliminations l :
  evidence_of (List.map elimination_record l) = [].
Proof.
  unfold evidence_of. induction l as [|a l IH]; simpl; auto.
Qed.

Lemma evidence_of_scorings l :
  evidence_of (List.map scoring_record l) = List.map sr_explanation l.
Proof.
  unfold evidence_of. induction l as [|a l IH]; simpl; [reflexivity|].
  f_equal. exact IH.
Qed.

(** X2. The evidence is the list of the explanations of the scoring
    rules whose trigger matches, in declaration order: it depends on the
    scoring rules and the signals only, not on the hypotheses, the
    elimination rules or the scores. *)
Theorem evidence_from_rules e signals :
  exists r,
    fst (fst (analyze e signals)) = Some r /\
    evidence r =
      List.map sr_explanation
        (List.filter (fun rule => matches signals (sr_if rule))
           (rules (this_rules e))).
Proof.
  destruct (analyze_result e signals) as (r & Hr & _ & _ & _ & He).
  exists r. split; [exact Hr|].
  rewrite He, analyze_applied, evidence_of_app.
  rewrite evidence_of_eliminations, evidence_of_scorings. reflexivity.
Qed.

(** ** The list of eliminated causes *)

Lemma includes_iff l x : includes l x = true <-> In x l.
Proof.
  unfold includes. rewrite existsb_exists. split.
  - intros [y [Hy Heq]]. apply String.eqb_eq in Heq. congruence.
  - intros Hin. exists x. split; [assumption|apply String.eqb_refl].
Qed.

Lemma get_is_Some_keys {V} k (o : list (string * V)) :
  is_Some (Obj.get k o) <-> In k (Obj.keys o).
Proof.
  induction o as [|[k' v] o IH]; simpl.
  - split; [intros [x Hx]; discriminate|tauto].
  - destruct (String.eqb k k') eqn:Hk.
    + apply String.eqb_eq in Hk. subst k'. split; eauto.
    + apply String.eqb_neq in Hk. rewrite IH. split; [tauto|].
      intros [Heq|Hin]; [congruence|assumption].
Qed.

Lemma eliminate_causes_NoDup e target :
  NoDup (eliminatedCauses e) -> NoDup (eliminatedCauses (eliminate e target)).
Proof.
  intros Hnd. unfold eliminate.
  destruct (Obj.get target (hypotheses e)); [simpl|assumption].
  destruct (includes (eliminatedCauses e) target) eqn:Hinc; [assumption|].
  apply NoDup_app. split; [assumption|]. split.
  - intros x Hx Hx'. apply list_elem_of_In in Hx, Hx'.
    destruct Hx' as [<-|[]].
    apply includes_iff in Hx. congruence.
  - apply NoDup_singleton.
Qed.

Lemma eliminate_causes_iff e target h :
  In h (eliminatedCauses (eliminate e target)) <->
  In h (eliminatedCauses e) \/ (h = target /\ In h (Obj.keys (hypotheses e))).
Proof.
  unfold eliminate.
  destruct (Obj.get target (hypotheses e)) as [data|] eqn:Hget; simpl.
  - assert (Hkey : In target (Obj.keys (hypotheses e)))
      by (apply get_is_Some_keys; rewrite Hget; eauto).
    destruct (includes (eliminatedCauses e) target) eqn:Hinc.
    + apply includes_iff in Hinc. split; [tauto|].
      intros [H|[-> _]]; assumption.
    + rewrite in_app_iff. simpl. split.
      * intros [H|[<-|[]]]; [left; assumption|right; auto].
      * intros [H|[-> _]]; [left; assumption|right; left; reflexivity].
  - split; [tauto|]. intros [H|[-> Hkey]]; [assumption|].
    apply get_is_Some_keys in Hkey. rewrite Hget in Hkey.
    destruct Hkey as [x Hx]. discriminate.
Qed.

Lemma fold_eliminate_keys l e :
  Obj.keys (hypotheses (fold_left eliminate l e)) = Obj.keys (hypotheses e).
Proof.
  apply (fold_left_invariant
           (fun e' => Obj.keys (hypotheses e') = Obj.keys (hypotheses e))); auto.
  intros s a <-. apply eliminate_keys.
Qed.

Lemma fold_eliminate_causes_iff l e h :
  In h (eliminatedCauses (fold_left eliminate l e)) <->
  In h (eliminatedCauses e) \/ (In h l /\ In h (Obj.keys (hypotheses e))).
Proof.
  revert e. induction l as [|t l IH]; intros e; simpl; [tauto|].
  rewrite IH, eliminate_causes_iff, eliminate_keys. intuition (subst; auto).
Qed.

Lemma applyEliminationRule_keys signals e rule :
  Obj.keys (hypotheses (fst (applyEliminationRule signals e rule))) =
  Obj.keys (hypotheses e).
Proof.
  unfold applyEliminationRule. rewrite bind_fst.
  destruct (fst (evaluateConditions _ _)); simpl; [|reflexivity].
  apply fold_eliminate_keys.
Qed.

Lemma applyEliminationRule_causes_iff signals e rule h :
  In h (eliminatedCauses (fst (applyEliminationRule signals e rule))) <->
  In h (eliminatedCauses e) \/
  (matches signals (er_if rule) = true /\ In h (er_eliminate rule) /\
   In h (Obj.keys (hypotheses e))).
Proof.
  unfold applyEliminationRule, matches. rewrite bind_fst.
  destruct (fst (evaluateConditions _ _)); simpl.
  - change (In h (eliminatedCauses (fold_left eliminate (er_eliminate rule) e)) <->
            In h (eliminatedCauses e) \/
            (true = true /\ In h (er_eliminate rule) /\
             In h (Obj.keys (hypotheses e)))).
    rewrite fold_eliminate_causes_iff. tauto.
  - split; [tauto|]. intros [H|[H _]]; [assumption|discriminate].
Qed.

Lemma foldM_eliminate_causes_iff signals l e h :
  In h (eliminatedCauses (fst (foldM (applyEliminationRule signals) l e))) <->
  In h (eliminatedCauses e) \/
  (In h (Obj.keys (hypotheses e)) /\
   exists rule, In rule l /\ matches signals (er_if rule) = true /\
                In h (er_eliminate rule)).
Proof.
  revert e. induction l as [|rule l IH]; intros e; simpl.
  - split; [tauto|]. intros [H|[_ [rule [[] _]]]]. assumption.
  - rewrite bind_fst, IH, applyEliminationRule_causes_iff,
      applyEliminationRule_keys.
    split.
    + intros [[H|(Hm & Hin & Hk)]|(Hk & rule' & Hin & Hm & Hh)]; [tauto| |].
      * right. split; [assumption|]. exists rule. auto.
      * right. split; [assumption|]. exists rule'. auto.
    + intros [H|(Hk & rule' & [<-|Hin] & Hm & Hh)]; [tauto| |].
      * left. right. auto.
      * right. split; [assumption|]. exists rule'. auto.
Qed.

Lemma analyze_causes e signals :
  eliminatedCauses (snd (fst (analyze e signals))) =
  eliminatedCauses (fst (applyEliminationRules signals (reset e))).
Proof. rewrite analyze_fst. simpl. apply applyScoringRules_causes. Qed.

(** X3. When every name in an [eliminate] list is a declared hypothesis
    or, failing that, no member of [Object.prototype] (for which
    [this.hypotheses[name]] is defined without [name] being declared),
    [eliminated_causes] has no duplicate and lists exactly the declared
    hypotheses that an elimination rule with a matching trigger names: a
    name that is not a key of [rules.hypotheses] is not listed. *)
Theorem eliminated_causes_exact e signals :
  (forall rule h,
     In rule (elimination_rules (this_rules e)) -> In h (er_eliminate rule) ->
     In h (Obj.keys (rs_hypotheses (this_rules e))) \/ ~ In h Object_prototype) ->
  exists r,
    fst (fst (analyze e signals)) = Some r /\
    NoDup (eliminated_causes r) /\
    forall h,
      In h (eliminated_causes r) <->
      In h (Obj.keys (rs_hypotheses (this_rules e))) /\
      exists rule,
        In rule (elimination_rules (this_rules e)) /\
        matches signals (er_if rule) = true /\
        In h (er_eliminate rule).
Proof.
  intros _.
  destruct (analyze_result e signals) as (r & Hr & _ & Hc & _).
  exists r. split; [exact Hr|]. rewrite Hc, analyze_causes. split.
  - unfold applyEliminationRules.
    apply (foldM_invariant (fun e' => NoDup (eliminatedCauses e')));
      [|apply NoDup_nil_2].
    intros s rule Hs. unfold applyEliminationRule. rewrite bind_fst.
    destruct (fst (evaluateConditions _ _)); simpl; [|exact Hs].
    apply (fold_left_invariant (fun e' => NoDup (eliminatedCauses e')));
      [|exact Hs].
    intros s' a. apply eliminate_causes_NoDup.
  - intros h. unfold applyEliminationRules.
    rewrite foldM_eliminate_causes_iff. simpl.
    rewrite deep_copy_keys. split; [|tauto].
    intros [[]|H]. exact H.
Qed.

(** ** Who is ranked *)

Lemma In_alter {V} (f : V -> V) t (o : list (string * V)) k v :
  In (k, v) (Obj.alter f t o) ->
  (k = t /\ exists v0, In (k, v0) o /\ v = f v0) \/ In (k, v) o.
Proof.
  unfold Obj.alter. rewrite in_map_iff. intros [[k0 v0] [Heq Hin]].
  simpl in Heq. destruct (String.eqb t k0) eqn:Ht.
  - apply String.eqb_eq in Ht. subst k0. injection Heq as <- <-.
    left. split; [reflexivity|]. eauto.
  - injection Heq as <- <-. right. assumption.
Qed.

Lemma get_NoDup {V} (o : list (string * V)) k v :
  NoDup (Obj.keys o) -> In (k, v) o -> Obj.get k o = Some v.
Proof.
  induction o as [|[k' v'] o IH]; simpl; [tauto|].
  intros Hnd [Heq|Hin].
  - injection Heq as -> ->. rewrite String.eqb_refl. reflexivity.
  - apply NoDup_cons in Hnd as [Hnotin Hnd].
    destruct (String.eqb k k') eqn:Hk.
    + apply String.eqb_eq in Hk. subst k'. exfalso. apply Hnotin.
      apply list_elem_of_In. apply in_map_iff. exists (k, v). auto.
    + apply IH; assumption.
Qed.

Lemma eliminate_flagged e target :
  flagged_listed_at e -> flagged_listed_at (eliminate e target).
Proof.
  intros He h data Hin Hflag.
  apply eliminate_causes_iff. revert Hin. unfold eliminate.
  destruct (Obj.get target (hypotheses e)) eqn:Hget; simpl.
  - intros Hin. apply In_alter in Hin as [[-> _]|Hin].
    + right. split; [reflexivity|].
      apply get_is_Some_keys. rewrite Hget. eauto.
    + left. eauto.
  - intros Hin. left. eauto.
Qed.

Lemma applyScore_flagged e entry :
  flagged_listed_at e -> flagged_listed_at (applyScore e entry).
Proof.
  intros He h data. unfold applyScore. destruct entry as [target scoreChange].
  destruct (Obj.get target (hypotheses e)) as [d|]; [|apply He].
  destruct (eliminated d); [apply He|]. simpl.
  intros Hin Hflag. apply In_alter in Hin as [[-> (v0 & Hin & ->)]|Hin].
  - apply (He target v0 Hin). exact Hflag.
  - apply (He h data Hin Hflag).
Qed.

Lemma analyze_flagged e signals :
  flagged_listed_at (snd (fst (analyze e signals))).
Proof.
  rewrite analyze_fst. simpl.
  assert (H0 : flagged_listed_at (reset e)).
  { intros h data Hin Hflag. simpl in Hin. unfold deep_copy in Hin.
    apply in_map_iff in Hin as [p [[= _ <-] _]]. discriminate. }
  assert (H1 : flagged_listed_at (fst (applyEliminationRules signals (reset e)))).
  { unfold applyEliminationRules. apply foldM_invariant; [|exact H0].
    intros s rule Hs. unfold applyEliminationRule. rewrite bind_fst.
    destruct (fst (evaluateConditions _ _)); simpl; [|exact Hs].
    assert (Hf : flagged_listed_at (fold_left eliminate (er_eliminate rule) s)).
    { apply fold_left_invariant; [|exact Hs]. intros s' a. apply eliminate_flagged. }
    exact Hf. }
  unfold applyScoringRules. apply foldM_invariant; [|exact H1].
  intros s rule Hs. unfold applyScoringRule. rewrite bind_fst.
  destruct (fst (evaluateConditions _ _)); simpl; [|exact Hs].
  assert (Hf : flagged_listed_at (fold_left applyScore (sr_then rule) s)).
  { apply fold_left_invariant; [|exact Hs]. intros s' a. apply applyScore_flagged. }
  exact Hf.
Qed.

Lemma analyze_causes_frozen e signals :
  causes_frozen (snd (fst (analyze e signals))).
Proof.
  intros h Hin. rewrite analyze_causes in Hin.
  apply (applyEliminationRules_causes_frozen signals e) in Hin.
  rewrite analyze_fst. simpl. unfold applyScoringRules.
  apply (foldM_invariant (fun e' => frozen h (hypotheses e'))); [|exact Hin].
  intros s a. apply applyScoringRule_frozen.
Qed.

(** X4. With unique keys in [rules.hypotheses] and a total that is not
    0, the ranked list holds exactly the declared hypotheses that are
    not on [eliminated_causes]; in particular the primary cause is never
    an eliminated one. *)
Theorem ranked_are_the_survivors e signals :
  NoDup (Obj.keys (rs_hypotheses (this_rules e))) ->
  totalScore
    (activeHypotheses (hypotheses (snd (fst (analyze e signals))))) <> 0 ->
  exists r ranked,
    fst (fst (analyze e signals)) = Some r /\
    all_hypotheses r = Some ranked /\
    (forall n,
       In n (List.map name ranked) <->
       In n (Obj.keys (rs_hypotheses (this_rules e))) /\
       ~ In n (eliminated_causes r)) /\
    ~ In (primary_cause r) (eliminated_causes r).
Proof.
  intros Hnd Htotal.
  set (e2 := snd (fst (analyze e signals))) in *.
  destruct (calculateResult_ranked e2 Htotal)
    as (r & primary & rest & Hr & Hsort & Hall & Hcause & _).
  assert (Hres : fst (fst (analyze e signals)) = Some r).
  { unfold e2 in Hr. rewrite analyze_fst in *. exact Hr. }
  destruct (calculateResult_fields _ _ Hr) as (_ & Hc & _).
  pose proof (analyze_keys e signals) as Hkeys. fold e2 in Hkeys.
  rewrite <- Hkeys in Hnd |- *.
  assert (Hnames : forall n,
            In n (List.map name (primary :: rest)) <->
            exists data, In (n, data) (hypotheses e2) /\ eliminated data = false).
  { intros n. rewrite <- Hsort.
    pose proof (Permutation_map name
                  (sort_by_confidence_Permutation
                     (List.map (normalize (totalScore (activeHypotheses (hypotheses e2))))
                        (activeHypotheses (hypotheses e2))))) as Hp.
    transitivity
      (In n (List.map name
               (List.map (normalize (totalScore (activeHypotheses (hypotheses e2))))
                  (activeHypotheses (hypotheses e2))))).
    { split; intros H;
        [apply (Permutation_in _ Hp) | apply (Permutation_in _ (Permutation_sym Hp))];
        exact H. }
    assert (Hn : List.map name
                   (List.map (normalize (totalScore (activeHypotheses (hypotheses e2))))
                      (activeHypotheses (hypotheses e2))) =
                 List.map fst (activeHypotheses (hypotheses e2)))
      by (rewrite List.map_map; apply List.map_ext; reflexivity).
    rewrite Hn, (activeHypotheses_names (hypotheses e2)).
    rewrite in_map_iff. split.
    - intros [[n' data] [Heq Hin]]. simpl in Heq. subst n'.
      apply filter_In in Hin as [Hin Hflag]. simpl in Hflag.
      exists data. split; [assumption|].
      destruct (eliminated data); [discriminate Hflag|reflexivity].
    - intros [data [Hin Hflag]]. exists (n, data). split; [reflexivity|].
      apply filter_In. simpl. rewrite Hflag. auto. }
  assert (Hiff : forall n,
            In n (List.map name (primary :: rest)) <->
            In n (Obj.keys (hypotheses e2)) /\ ~ In n (eliminated_causes r)).
  { intros n. rewrite Hnames, Hc. split.
    - intros [data [Hin Hflag]]. split.
      + apply in_map_iff. exists (n, data). auto.
      + intros Hlisted. apply (analyze_causes_frozen e signals) in Hlisted.
        fold e2 in Hlisted. unfold frozen in Hlisted.
        rewrite (get_NoDup _ _ _ Hnd Hin) in Hlisted.
        injection Hlisted as ->. discriminate.
    - intros [Hkey Hnot]. apply in_map_iff in Hkey as [[n' data] [Heq Hin]].
      simpl in Heq. subst n'. exists data. split; [assumption|].
      destruct (eliminated data) eqn:Hflag; [|reflexivity].
      exfalso. apply Hnot. apply (analyze_flagged e signals n data Hin Hflag). }
  exists r, (primary :: rest).
  split; [exact Hres|]. split; [exact Hall|]. split; [exact Hiff|].
  rewrite Hcause. apply (Hiff (name primary)). left. reflexivity.
Qed.

(** ** The range of the percentages *)

Lemma analyze_nonneg e signals :
  Forall (fun p => 0 <= snd p) (rs_hypotheses (this_rules e)) ->
  nonneg_scores (hypotheses (snd (fst (analyze e signals)))).
Proof.
  intros Hinit. rewrite analyze_fst. simpl.
  unfold applyScoringRules.
  apply (foldM_invariant (fun e' => nonneg_scores (hypotheses e')));
    [intros s a; apply applyScoringRule_nonneg|].
  unfold applyEliminationRules.
  apply (foldM_invariant (fun e' => nonneg_scores (hypotheses e')));
    [intros s a; apply applyEliminationRule_nonneg|].
  apply deep_copy_nonneg, Hinit.
Qed.

Lemma activeHypotheses_nonneg hyps :
  nonneg_scores hyps -> Forall (fun h => 0 <= snd h) (activeHypotheses hyps).
Proof.
  unfold nonneg_scores, activeHypotheses. intros H.
  apply Forall_map. rewrite Forall_forall in H |- *.
  intros p Hp. apply list_elem_of_In, filter_In in Hp as [Hp _].
  apply H, list_elem_of_In, Hp.
Qed.

Lemma totalScore_bounds active :
  Forall (fun h : string * Z => 0 <= snd h) active ->
  0 <= totalScore active /\
  Forall (fun h => snd h <= totalScore active) active.
Proof.
  induction 1 as [|h active Hh Hactive [IH0 IH]].
  - split; [reflexivity|constructor].
  - rewrite totalScore_cons. split; [lia|].
    constructor; [lia|].
    eapply Forall_impl; [exact IH|]. simpl. intros. lia.
Qed.

Lemma Math_round_percent score total :
  0 < total -> 0 <= score <= total ->
  0 <= JS.Math_round (score * 100) total <= 100.
Proof.
  intros Htotal Hscore.
  pose proof (Math_round_nearest (score * 100) total Htotal) as H. nia.
Qed.


Lemma Math_round_whole score : score <> 0 -> JS.Math_round (score * 100) score = 100.
Proof.
  intros Hs. unfold JS.Math_round.
  replace (2 * (score * 100) + score) with (201 * score) by lia.
  rewrite Z.div_mul_cancel_r by lia. reflexivity.
Qed.

(** X6. When a single hypothesis is left active and its score is not 0,
    it is the primary cause with 100 percent and level "High", whatever
    its score is. *)
Theorem single_survivor e signals n s :
  activeHypotheses (hypotheses (snd (fst (analyze e signals)))) = [(n, s)] ->
  s <> 0 ->
  exists r,
    fst (fst (analyze e signals)) = Some r /\
    primary_cause r = n /\
    confidence_percent r = 100 /\
    confidence_level r = "High" /\
    raw_score r = Some s /\
    all_hypotheses r =
      Some [ {| name := n; n_score := s; n_confidence_percent := 100 |} ].
Proof.
  rewrite analyze_fst. cbv zeta. cbn [fst snd].
  set (e2 := fst (applyScoringRules signals _)).
  intros Hactive Hs. unfold calculateResult. rewrite Hactive.
  assert (Htotal : totalScore [(n, s)] = s) by (unfold totalScore; simpl; lia).
  rewrite Htotal. destruct (s =? 0) eqn:Hz; [apply Z.eqb_eq in Hz; contradiction|].
  simpl. unfold normalize. simpl. rewrite (Math_round_whole s Hs).
  eexists. split; [reflexivity|]. simpl. repeat split; reflexivity.
Qed.

Lemma sum_percent_le l c :
  Forall (fun h => n_confidence_percent h <= c) l ->
  sum_percent l <= Z.of_nat (length l) * c.
Proof.
  induction 1 as [|h l Hh Hl IH]; [reflexivity|].
  change (sum_percent (h :: l)) with (n_confidence_percent h + sum_percent l).
  rewrite length_cons, Nat2Z.inj_succ. lia.
Qed.


(** ** Lookups that a step leaves alone *)

Lemma foldM_invariant_In {A S} (P : S -> Prop) (f : S -> A -> Console S) l s :
  (forall s a, In a l -> P s -> P (fst (f s a))) -> P s -> P (fst (foldM f l s)).
Proof.
  revert s. induction l as [|a l IH]; intros s Hstep Hs; simpl; [exact Hs|].
  rewrite bind_fst. apply IH.
  - intros s' a' Hin. apply Hstep. right. exact Hin.
  - apply Hstep; [left; reflexivity|exact Hs].
Qed.

Lemma fold_left_invariant_In {A S} (P : S -> Prop) (f : S -> A -> S) l s :
  (forall s a, In a l -> P s -> P (f s a)) -> P s -> P (fold_left f l s).
Proof.
  revert s. induction l as [|a l IH]; intros s Hstep Hs; simpl; [exact Hs|].
  apply IH.
  - intros s' a' Hin. apply Hstep. right. exact Hin.
  - apply Hstep; [left; reflexivity|exact Hs].
Qed.

Lemma get_deep_copy h declared :
  Obj.get h (deep_copy declared) =
  (fun s => {| score := s; eliminated := false |}) <$> Obj.get h declared.
Proof.
  induction declared as [|[k s] declared IH]; simpl; [reflexivity|].
  destruct (String.eqb h k); [reflexivity|exact IH].
Qed.

Lemma eliminate_get_other e target h :
  h <> target ->
  Obj.get h (hypotheses (eliminate e target)) = Obj.get h (hypotheses e).
Proof.
  intros Hne. unfold eliminate.
  destruct (Obj.get target (hypotheses e)); [simpl|reflexivity].
  apply get_alter_ne. congruence.
Qed.

Lemma applyScore_get_other e entry h :
  h <> fst entry ->
  Obj.get h (hypotheses (applyScore e entry)) = Obj.get h (hypotheses e).
Proof.
  intros Hne. unfold applyScore. destruct entry as [target scoreChange].
  simpl in Hne.
  destruct (Obj.get target (hypotheses e)) as [data|]; [|reflexivity].
  destruct (eliminated data); [reflexivity|]. simpl.
  apply get_alter_ne. congruence.
Qed.

(** ** Matching is a conjunction *)

Lemma evaluateOperators_forallb value operators :
  fst (evaluateOperators value operators) =
  forallb (operator_holds value) operators.
Proof.
  induction operators as [|[operator threshold] rest IH]; simpl; [reflexivity|].
  unfold operator_holds at 1. simpl.
  destruct (compare value operator threshold) as [[]|]; simpl; auto.
Qed.

Lemma evaluateConditions_forallb trigger signals :
  fst (evaluateConditions trigger signals) =
  forallb (entry_holds signals) trigger.
Proof.
  induction trigger as [|[key condition] rest IH]; simpl; [reflexivity|].
  unfold entry_holds at 1. simpl.
  destruct (signals !! key) as [[| b | n | s]|]; try reflexivity;
    destruct condition as [s' | b' | n' | operators];
    try (destruct (JS.strict_eq _ _); simpl; [exact IH|reflexivity]).
  all: rewrite bind_fst, evaluateOperators_forallb;
    destruct (forallb _ operators); simpl; [exact IH|reflexivity].
Qed.

Lemma forallb_Permutation {A} (f : A -> bool) l l' :
  Permutation l l' -> forallb f l = forallb f l'.
Proof.
  induction 1; simpl; try congruence.
  destruct (f x), (f y); reflexivity.
Qed.

(** X9. Whether a trigger matches does not depend on the order of its
    keys (only the warnings printed on the way can differ). *)
Theorem trigger_order signals trigger trigger' :
  Permutation trigger trigger' ->
  matches signals trigger = matches signals trigger'.
Proof.
  intros Hperm. unfold matches. rewrite !evaluateConditions_forallb.
  apply forallb_Permutation, Hperm.
Qed.

Lemma entry_holds_Permutation signals key operators operators' :
  Permutation operators operators' ->
  entry_holds signals (key, COperators operators) =
  entry_holds signals (key, COperators operators').
Proof.
  intros Hperm. unfold entry_holds. simpl.
  destruct (signals !! key) as [[| b | n | s]|]; try reflexivity;
    apply forallb_Permutation, Hperm.
Qed.

(** X10. Whether an operator set holds does not depend on the order of
    its operators, known or unknown (only the warnings printed on the
    way can differ). *)
Theorem operators_order signals key operators operators' rest :
  Permutation operators operators' ->
  matches signals ((key, COperators operators) :: rest) =
    matches signals ((key, COperators operators') :: rest).
Proof.
  intros Hperm. unfold matches. rewrite !evaluateConditions_forallb.
  cbn [forallb].
  rewrite (entry_holds_Permutation signals key _ _ Hperm). reflexivity.
Qed.

(** ** What an analysis prints *)

Lemma compare_None value operator threshold :
  compare value operator threshold = None -> recognised operator = false.
Proof.
  intros Hnone. destruct (recognised operator) eqn:Hrec; [|reflexivity].
  destruct (compare_recognised value operator threshold Hrec) as [b Hb].
  congruence.
Qed.

Lemma evaluateOperators_log value operators :
  snd (evaluateOperators value operators) = [] \/
  exists operator,
    snd (evaluateOperators value operators) = ["Unknown operator: " +:+ operator] /\
    In operator (List.map fst operators) /\ recognised operator = false.
Proof.
  induction operators as [|[operator threshold] rest IH]; simpl; [left; reflexivity|].
  destruct (compare value operator threshold) as [[]|] eqn:Hc.
  - destruct IH as [IH|(op & Hlog & Hin & Hop)]; [left; exact IH|].
    right. exists op. auto.
  - left. reflexivity.
  - right. exists operator. split; [reflexivity|].
    split; [left; reflexivity|]. apply (compare_None _ _ _ Hc).
Qed.

Lemma operators_step_log value operators (rest : Console bool) :
  snd (let* ok := evaluateOperators value operators in
       if negb ok then ret false else rest) =
  if fst (evaluateOperators value operators) then snd rest
  else snd (evaluateOperators value operators).
Proof.
  rewrite bind_snd.
  destruct (fst (evaluateOperators value operators)) eqn:Hok; simpl.
  - rewrite (evaluateOperators_true_silent _ _ Hok). reflexivity.
  - apply app_nil_r.
Qed.

Lemma evaluateConditions_log trigger signals :
  snd (evaluateConditions trigger signals) = [] \/
  exists operator,
    snd (evaluateConditions trigger signals) = ["Unknown operator: " +:+ operator] /\
    In operator (operators_of trigger) /\ recognised operator = false.
Proof.
  induction trigger as [|[key condition] rest IH]; simpl; [left; reflexivity|].
  assert (Hrest : snd (evaluateConditions rest signals) = [] \/
            exists operator,
              snd (evaluateConditions rest signals) =
                ["Unknown operator: " +:+ operator] /\
              In operator (operators_of ((key, condition) :: rest)) /\
              recognised operator = false).
  { destruct IH as [IH|(op & Hlog & Hin & Hop)]; [left; exact IH|].
    right. exists op. split; [exact Hlog|]. split; [|exact Hop].
    unfold operators_of. simpl. apply in_or_app. right. exact Hin. }
  destruct (signals !! key) as [[| b | n | s]|]; try (left; reflexivity);
    destruct condition as [s' | b' | n' | operators];
    try (destruct (negb _); [left; reflexivity|exact Hrest]).
  all: rewrite operators_step_log;
    match goal with
    | |- context [evaluateOperators ?v ?ops] =>
        destruct (fst (evaluateOperators v ops)); [exact Hrest|];
        destruct (evaluateOperators_log v ops)
          as [Hlog|(op & Hlog & Hin & Hop)]
    end;
    [ left; exact Hlog
    | right; exists op; split; [exact Hlog|]; split; [|exact Hop];
      unfold operators_of; simpl; apply in_or_app; left; exact Hin ].
Qed.

(** X11. Every message that an analysis prints is the warning
    "Unknown operator: " for an operator that occurs in a trigger of the
    rule set and is not one of the six known ones; each rule prints at
    most one message; a rule set with known operators only prints
    nothing. *)
Theorem warnings_are_unknown_operators e signals :
  (forall msg,
     In msg (snd (analyze e signals)) ->
     exists operator,
       msg = "Unknown operator: " +:+ operator /\
       recognised operator = false /\
       In operator (flat_map operators_of (triggers_of (this_rules e)))) /\
  (length (snd (analyze e signals)) <= length (triggers_of (this_rules e)))%nat /\
  (forallb recognised (flat_map operators_of (triggers_of (this_rules e))) = true ->
   snd (analyze e signals) = []).
Proof.
  rewrite analyze_log.
  set (triggers := triggers_of (this_rules e)). clearbody triggers.
  assert (Hmsg : forall msg,
            In msg (flat_map (fun t => snd (evaluateConditions t signals)) triggers) ->
            exists operator,
              msg = "Unknown operator: " +:+ operator /\
              recognised operator = false /\
              In operator (flat_map operators_of triggers)).
  { intros msg Hin. apply in_flat_map in Hin as [t [Ht Hin]].
    destruct (evaluateConditions_log t signals) as [Hlog|(op & Hlog & Hop & Hrec)];
      rewrite Hlog in Hin; [destruct Hin|].
    destruct Hin as [<-|[]]. exists op. split; [reflexivity|].
    split; [exact Hrec|]. apply in_flat_map. exists t. auto. }
  split; [exact Hmsg|]. split.
  - clear Hmsg. induction triggers as [|t triggers IH]; simpl; [lia|].
    rewrite length_app.
    destruct (evaluateConditions_log t signals) as [Hlog|(op & Hlog & _)];
      rewrite Hlog; simpl; lia.
  - intros Hall.
    destruct (flat_map (fun t => snd (evaluateConditions t signals)) triggers)
      as [|msg log] eqn:Hlog; [reflexivity|].
    destruct (Hmsg msg) as (op & _ & Hrec & Hin);
      [try rewrite Hlog; left; reflexivity|].
    rewrite forallb_forall in Hall. rewrite (Hall op Hin) in Hrec. discriminate.
Qed.

(** ** An analysis without signals *)

Lemma no_match_state e signals :
  Forall (fun trigger => matches signals trigger = false)
    (triggers_of (this_rules e)) ->
  snd (fst (analyze e signals)) = reset e.
Proof.
  intros Hnone. rewrite Forall_forall in Hnone.
  rewrite analyze_fst. simpl.
  assert (H1 : fst (applyEliminationRules signals (reset e)) = reset e).
  { unfold applyEliminationRules.
    apply (foldM_invariant_In (fun e' => e' = reset e)); [|reflexivity].
    simpl. intros s rule Hin ->. unfold applyEliminationRule. rewrite bind_fst.
    assert (Hm : matches signals (er_if rule) = false).
    { apply Hnone, list_elem_of_In. unfold triggers_of. apply in_or_app. left.
      apply in_map. exact Hin. }
    unfold matches in Hm. rewrite Hm. reflexivity. }
  rewrite H1. unfold applyScoringRules.
  apply (foldM_invariant_In (fun e' => e' = reset e)); [|reflexivity].
  simpl. intros s rule Hin ->. unfold applyScoringRule. rewrite bind_fst.
  assert (Hm : matches signals (sr_if rule) = false).
  { apply Hnone, list_elem_of_In. unfold triggers_of. apply in_or_app. right.
    apply in_map. exact Hin. }
  unfold matches in Hm. rewrite Hm. reflexivity.
Qed.

(** X12. Without any signal, a rule fires only if its trigger is empty
    or begins with a key that every object has (a member of
    [Object.prototype]).  When every rule has a condition and no trigger
    key is such a member, the analysis of the empty signals leaves the
    declared scores as they are, eliminates nothing, applies no rule,
    gives no evidence and prints nothing. *)
Theorem no_signals e :
  Forall (fun trigger => trigger <> []) (triggers_of (this_rules e)) ->
  Forall (fun trigger =>
            Forall (fun key => ~ In key Object_prototype) (List.map fst trigger))
    (triggers_of (this_rules e)) ->
  exists r,
    fst (fst (analyze e ∅)) = Some r /\
    all_scores r = deep_copy (rs_hypotheses (this_rules e)) /\
    eliminated_causes r = [] /\
    applied_rules r = [] /\
    evidence r = [] /\
    snd (analyze e ∅) = [].
Proof.
  intros Hnonempty _.
  assert (Hstep : forall trigger,
            trigger <> [] -> evaluateConditions trigger ∅ = (false, [])).
  { intros [|[key condition] rest] Hne; [contradiction|].
    apply evaluateConditions_missing. left. apply lookup_empty. }
  assert (Hnone : Forall (fun trigger => matches ∅ trigger = false)
                    (triggers_of (this_rules e))).
  { eapply Forall_impl; [exact Hnonempty|]. intros t Ht. unfold matches.
    rewrite (Hstep t Ht). reflexivity. }
  destruct (analyze_result e ∅) as (r & Hr & Hs & Hc & Ha & He).
  rewrite (no_match_state e ∅ Hnone) in Hs, Hc, Ha, He.
  exists r. split; [exact Hr|]. repeat split; try assumption.
  rewrite analyze_log.
  clear Hnone Hs Hc Ha He Hr.
  induction Hnonempty as [|t l Ht Hl IH]; simpl; [reflexivity|].
  rewrite (Hstep t Ht), IH. reflexivity.
Qed.

(** * Properties of the results screen *)

Section ResultsScreen.
Variable parseFloat : string -> option Z.

(** ** The signals that the wizard produces *)

Lemma typed_insert (signals : Signals) k v :
  Obj.get k signal_kinds = Some (kind_of v) ->
  (forall key value, signals !! key = Some value ->
                     Obj.get key signal_kinds = Some (kind_of value)) ->
  forall key value, <[k := v]> signals !! key = Some value ->
                    Obj.get key signal_kinds = Some (kind_of value).
Proof.
  intros Hk Hs key value. destruct (decide (k = key)) as [<-|Hne].
  - rewrite lookup_insert_eq. intros [= <-]. exact Hk.
  - rewrite lookup_insert_ne by exact Hne. apply Hs.
Qed.

Lemma typed_set_number (signals : Signals) k n :
  Obj.get k signal_kinds = Some KNumber ->
  (forall key value, signals !! key = Some value ->
                     Obj.get key signal_kinds = Some (kind_of value)) ->
  forall key value, set_number k n signals !! key = Some value ->
                    Obj.get key signal_kinds = Some (kind_of value).
Proof.
  intros Hk Hs. unfold set_number. destruct n as [n|]; [|exact Hs].
  apply typed_insert; assumption.
Qed.

Lemma present_insert (signals : Signals) k k' v :
  is_Some (signals !! k) -> is_Some (<[k' := v]> signals !! k).
Proof.
  intros Hs. destruct (decide (k' = k)) as [->|Hne].
  - rewrite lookup_insert_eq. eauto.
  - rewrite lookup_insert_ne by exact Hne. exact Hs.
Qed.

Lemma present_insert_eq (signals : Signals) k v :
  is_Some (<[k := v]> signals !! k).
Proof. rewrite lookup_insert_eq. eauto. Qed.

Lemma present_set_number (signals : Signals) k k' n :
  is_Some (signals !! k) -> is_Some (set_number k' n signals !! k).
Proof.
  intros Hs. unfold set_number. destruct n; [apply present_insert|]; exact Hs.
Qed.

Lemma extractSignals_kinds params key value :
  extractSignals parseFloat params !! key = Some value ->
  Obj.get key signal_kinds = Some (kind_of value).
Proof.
  revert key value. unfold extractSignals. cbv zeta.
  repeat first [ apply typed_set_number; [reflexivity|]
               | apply typed_insert; [reflexivity|] ].
  repeat match goal with
         | |- context [if ?b then _ else _] => destruct b
         end;
    repeat (apply typed_insert; [reflexivity|]);
    intros key value Hempty; rewrite lookup_empty in Hempty; discriminate.
Qed.

(** X13. [extractSignals] sets no other key than its fifteen, gives each
    the type of the table [signal_kinds] (never [null]), and always sets
    [timing_pattern], [packet_loss_percent], [memory_pressure],
    [app_specific], [vpn_in_use] and [recent_change], whatever the query
    string holds. *)
Theorem extractSignals_typed params :
  (forall key value,
     extractSignals parseFloat params !! key = Some value ->
     Obj.get key signal_kinds = Some (kind_of value) /\
     In key (Obj.keys signal_kinds) /\ value <> VNull) /\
  Forall (fun key => is_Some (extractSignals parseFloat params !! key))
    ["timing_pattern"; "packet_loss_percent"; "memory_pressure";
     "app_specific"; "vpn_in_use"; "recent_change"].
Proof.
  split.
  - intros key value Hkey.
    pose proof (extractSignals_kinds params key value Hkey) as Hkind.
    split; [exact Hkind|]. split.
    + apply get_is_Some_keys. rewrite Hkind. eauto.
    + intros ->. simpl in Hkind.
      apply (f_equal (fun o => match o with Some KNull => true | _ => false end))
        in Hkind.
      revert Hkind. clear. unfold signal_kinds. simpl.
      repeat (destruct (String.eqb key _); [discriminate|]). discriminate.
  - unfold extractSignals. cbv zeta.
    repeat constructor;
      repeat first [ apply present_insert_eq
                   | apply present_insert
                   | apply present_set_number ].
Qed.

(** X14. On the signals of [extractSignals], a trigger never matches
    when it has a condition on a key that [extractSignals] does not set
    and that is no member of [Object.prototype], or a scalar condition
    whose literal is not of the type that [extractSignals] gives to its
    key (the string "true" for the boolean [memory_pressure], say). *)
Theorem mistyped_condition_never_matches params trigger key condition :
  In (key, condition) trigger ->
  ~ In key (Obj.keys signal_kinds) /\ ~ In key Object_prototype \/
  (exists literal,
     scalar_value condition = Some literal /\
     Obj.get key signal_kinds <> Some (kind_of literal)) ->
  matches (extractSignals parseFloat params) trigger = false.
Proof.
  intros Hin Hbad. unfold matches. rewrite evaluateConditions_forallb.
  apply not_true_is_false. intros Hall.
  rewrite forallb_forall in Hall. specialize (Hall _ Hin).
  unfold entry_holds in Hall. simpl in Hall.
  destruct (extractSignals parseFloat params !! key) as [value|] eqn:Hkey;
    [|discriminate].
  pose proof (extractSignals_kinds params key value Hkey) as Htype.
  destruct Hbad as [[Hnot _]|(literal & Hlit & Hkind)].
  - apply Hnot. apply get_is_Some_keys. rewrite Htype. eauto.
  - apply Hkind. rewrite Htype. f_equal.
    destruct value; [discriminate| | |];
      destruct condition; simpl in Hlit; try discriminate;
      injection Hlit as <-; apply strict_eq_spec in Hall;
      try discriminate; subst; reflexivity.
Qed.

End ResultsScreen.

(** ** The display tables *)

(** X15. The table of [formatCauseName] and the two tables of
    [mapEngineResultToLegacy] have the same keys: a cause has a display
    name exactly when it has a bottleneck description and an
    explanation.  Any other cause that is no member of
    [Object.prototype] is displayed by its identifier, with an empty
    explanation. *)
Theorem display_tables_agree cause :
  (is_Some (Obj.get cause names) <-> is_Some (Obj.get cause bottleneckNames)) /\
  (is_Some (Obj.get cause names) <-> is_Some (Obj.get cause explanations)) /\
  (Obj.get cause names = None -> ~ In cause Object_prototype ->
   formatCauseName cause = cause /\
   forall r, primary_cause r = cause ->
             bottleneck (mapEngineResultToLegacy r) = cause /\
             explanation (mapEngineResultToLegacy r) = "").
Proof.
  assert (Hkeys1 : Obj.keys names = Obj.keys bottleneckNames) by reflexivity.
  assert (Hkeys2 : Obj.keys names = Obj.keys explanations) by reflexivity.
  split; [rewrite !get_is_Some_keys, Hkeys1; reflexivity|].
  split; [rewrite !get_is_Some_keys, Hkeys2; reflexivity|].
  intros Hnone _.
  assert (Hb : Obj.get cause bottleneckNames = None).
  { destruct (Obj.get cause bottleneckNames) eqn:Hget; [|reflexivity].
    assert (Hs : is_Some (Obj.get cause names))
      by (rewrite get_is_Some_keys, Hkeys1, <- get_is_Some_keys, Hget; eauto).
    rewrite Hnone in Hs. destruct Hs as [x Hx]. discriminate. }
  assert (He : Obj.get cause explanations = None).
  { destruct (Obj.get cause explanations) eqn:Hget; [|reflexivity].
    assert (Hs : is_Some (Obj.get cause names))
      by (rewrite get_is_Some_keys, Hkeys2, <- get_is_Some_keys, Hget; eauto).
    rewrite Hnone in Hs. destruct Hs as [x Hx]. discriminate. }
  split.
  - unfold formatCauseName. rewrite Hnone. reflexivity.
  - intros r <-. unfold mapEngineResultToLegacy. cbn [bottleneck explanation].
    rewrite Hb, He. split; reflexivity.
Qed.

(** X16. When the active scores sum to 0 the screen shows the unknown
    verdict of the engine as "Insufficient diagnostic data", level "Low",
    0 percent, with the two generic next steps both as next steps and as
    recommendations. *)
Theorem unknown_verdict_displayed e signals :
  totalScore
    (activeHypotheses (hypotheses (snd (fst (analyze e signals))))) = 0 ->
  exists r,
    fst (fst (analyze e signals)) = Some r /\
    bottleneck (mapEngineResultToLegacy r) = "Insufficient diagnostic data" /\
    confidence (mapEngineResultToLegacy r) = "Low" /\
    confidencePercent (mapEngineResultToLegacy r) = 0 /\
    nextSteps (mapEngineResultToLegacy r) =
      ["Collect more diagnostic data"; "Run additional tests"] /\
    recommendations (mapEngineResultToLegacy r) =
      nextSteps (mapEngineResultToLegacy r) /\
    explanation (mapEngineResultToLegacy r) <> "".
Proof.
  rewrite analyze_fst. cbv zeta. cbn [fst snd].
  set (e2 := fst (applyScoringRules signals _)).
  intros Htotal. unfold calculateResult. rewrite Htotal. simpl.
  eexists. split; [reflexivity|]. unfold mapEngineResultToLegacy. simpl.
  repeat split; try reflexivity. discriminate.
Qed.

Section LegacyAnalysis.
Variable parseFloat : string -> option Z.


(** ** The legacy analysis *)

Ltac legacy_cases :=
  unfold analyzeBottleneckLegacy, legacy_diagnosis; cbv zeta;
  repeat match goal with
         | |- context [if ?b then _ else _] =>
             lazymatch b with
             | context [d_confidence] => fail
             | _ => destruct b eqn:?
             end
         end.

(** X18. The legacy analysis always answers with a percentage between 45
    and 88, a level that is "High" from 80 and "Medium" from 60, three
    pieces of evidence and three next steps; the level is "Low" only for
    the answer "Insufficient diagnostic data". *)
Theorem legacy_confidence params :
  let a := analyzeBottleneckLegacy parseFloat params in
  45 <= confidencePercent a <= 88 /\
  (confidence a = "High" <-> 80 <= confidencePercent a) /\
  (confidence a = "Low" <-> bottleneck a = "Insufficient diagnostic data") /\
  (confidence a = "High" \/ confidence a = "Medium" \/ confidence a = "Low") /\
  length (evidence' a) = 3%nat /\
  length (nextSteps a) = 3%nat /\
  engineResult a = None.
Proof.
  cbv zeta. legacy_cases; simpl;
    repeat match goal with
           | |- context [if ?b then _ else _] => destruct b eqn:?
           end; simpl;
    try (exfalso;
         repeat match goal with
                | H : (_ <=? _) = true |- _ => apply Z.leb_le in H
                | H : (_ <=? _) = false |- _ => apply Z.leb_gt in H
                end; lia);
    (split; [lia|]);
    (split; [split; [intros H; first [lia|discriminate H]
                    |intros H; first [reflexivity|lia]]|]);
    (split; [split; intros H; first [reflexivity|discriminate H]|]);
    (split; [auto|]); auto.
Qed.

(** X19. Because a missing throughput counts as 0, the legacy analysis
    reaches its last five answers (server response, intermittent,
    single resource, network infrastructure, insufficient data) only
    for a query string that holds a throughput of at least 5. *)
Theorem legacy_needs_throughput params :
  In (bottleneck (analyzeBottleneckLegacy parseFloat params))
    ["Server response time delays"; "Intermittent network instability";
     "Specific resource or endpoint issue"; "Network infrastructure issues";
     "Insufficient diagnostic data"] ->
  exists text throughput,
    Obj.get "throughput_mbps" params = Some text /\
    parseFloat text = Some throughput /\
    5 <= throughput.
Proof.
  assert (Hmetric :
            (default 0 (metric parseFloat params "throughput_mbps") <? 5) = false ->
            exists text throughput,
              Obj.get "throughput_mbps" params = Some text /\
              parseFloat text = Some throughput /\ 5 <= throughput).
  { intros Hlt. apply Z.ltb_ge in Hlt. unfold metric in Hlt.
    destruct (Obj.get "throughput_mbps" params) as [text|]; [|simpl in Hlt; lia].
    destruct (parseFloat text) as [throughput|] eqn:Hp; [|simpl in Hlt; lia].
    exists text, throughput. auto. }
  legacy_cases; simpl; intros Hin;
    repeat (destruct Hin as [Hin|Hin]; [discriminate Hin|]);
    try (destruct Hin as []);
    match goal with
    | H : (_ || (default 0 (metric parseFloat params "throughput_mbps") <? 5)) = false
      |- _ => apply orb_false_elim in H as [_ H]; exact (Hmetric H)
    end.
Qed.

End LegacyAnalysis.

(** * Further properties of the stages *)

(** ** The final score of a hypothesis *)

Lemma applyScore_get_same e h scoreChange s :
  Obj.get h (hypotheses e) = Some {| score := s; eliminated := false |} ->
  Obj.get h (hypotheses (applyScore e (h, scoreChange))) =
  Some {| score := add_clamped s scoreChange; eliminated := false |}.
Proof.
  intros Hget. unfold applyScore. rewrite Hget. simpl.
  rewrite get_alter_eq, Hget. simpl. unfold add_score, add_clamped. simpl.
  f_equal. f_equal.
  destruct (s + scoreChange <? 0) eqn:Hlt;
    [apply Z.ltb_lt in Hlt|apply Z.ltb_ge in Hlt]; lia.
Qed.

Lemma fold_applyScore_get entries e h s :
  Obj.get h (hypotheses e) = Some {| score := s; eliminated := false |} ->
  Obj.get h (hypotheses (fold_left applyScore entries e)) =
  Some {| score :=
            fold_left add_clamped
              (List.map snd
                 (List.filter (fun entry => String.eqb h (fst entry)) entries)) s;
          eliminated := false |}.
Proof.
  revert e s. induction entries as [|[target delta] entries IH]; intros e s Hget;
    [exact Hget|].
  cbn [fold_left List.filter fst].
  destruct (String.eqb h target) eqn:Hk; cbn [List.map fold_left snd].
  - apply String.eqb_eq in Hk. subst target.
    apply IH. apply applyScore_get_same. exact Hget.
  - apply String.eqb_neq in Hk. apply IH.
    rewrite applyScore_get_other by exact Hk. exact Hget.
Qed.

Lemma foldM_applyScoringRule_get signals scoring e h s :
  Obj.get h (hypotheses e) = Some {| score := s; eliminated := false |} ->
  Obj.get h (hypotheses (fst (foldM (applyScoringRule signals) scoring e))) =
  Some {| score := fold_left add_clamped (deltas_for signals h scoring) s;
          eliminated := false |}.
Proof.
  revert e s. induction scoring as [|rule scoring IH]; intros e s Hget; simpl;
    [exact Hget|].
  rewrite bind_fst, fold_left_app. apply IH.
  unfold applyScoringRule, matches. rewrite bind_fst.
  destruct (fst (evaluateConditions (sr_if rule) signals)); simpl; [|exact Hget].
  apply (fold_applyScore_get (sr_then rule) e h s Hget).
Qed.


(** ** Signals that no rule reads *)

Lemma evaluateConditions_agree trigger (signals signals' : Signals) :
  (forall key, In key (List.map fst trigger) -> signals !! key = signals' !! key) ->
  evaluateConditions trigger signals = evaluateConditions trigger signals'.
Proof.
  induction trigger as [|[key condition] rest IH]; intros Hagree; simpl;
    [reflexivity|].
  rewrite <- (Hagree key) by (left; reflexivity).
  rewrite IH by (intros k Hk; apply Hagree; right; exact Hk).
  reflexivity.
Qed.

Lemma foldM_ext_In {A S} (f g : S -> A -> Console S) l s :
  (forall s a, In a l -> f s a = g s a) -> foldM f l s = foldM g l s.
Proof.
  revert s. induction l as [|a l IH]; intros s Hext; simpl; [reflexivity|].
  rewrite (Hext s a) by (left; reflexivity).
  unfold bind. rewrite IH by (intros; apply Hext; right; assumption).
  reflexivity.
Qed.

(** X20. The analysis reads the signals through the keys of the triggers
    only: two signal maps that agree on these keys give the same result,
    the same instance and the same warnings, whatever else they hold. *)
Theorem unused_signals_ignored e signals signals' :
  agree_on (triggers_of (this_rules e)) signals signals' ->
  analyze e signals = analyze e signals'.
Proof.
  intros Hagree. unfold analyze. cbv zeta.
  assert (H1 : applyEliminationRules signals (reset e) =
               applyEliminationRules signals' (reset e)).
  { unfold applyEliminationRules. apply foldM_ext_In. simpl.
    intros s rule Hin. unfold applyEliminationRule.
    rewrite (evaluateConditions_agree (er_if rule) signals signals');
      [reflexivity|].
    intros key Hkey. apply (Hagree (er_if rule)); [|exact Hkey].
    unfold triggers_of. apply in_or_app. left. apply in_map. exact Hin. }
  rewrite H1.
  set (m := applyEliminationRules signals' (reset e)).
  assert (Hrules : this_rules (fst m) = this_rules e)
    by (unfold m; rewrite applyEliminationRules_rules; reflexivity).
  assert (H2 : applyScoringRules signals (fst m) =
               applyScoringRules signals' (fst m)).
  { unfold applyScoringRules. apply foldM_ext_In.
    rewrite Hrules. intros s rule Hin. unfold applyScoringRule.
    rewrite (evaluateConditions_agree (sr_if rule) signals signals');
      [reflexivity|].
    intros key Hkey. apply (Hagree (sr_if rule)); [|exact Hkey].
    unfold triggers_of. apply in_or_app. right. apply in_map. exact Hin. }
  unfold bind at 1 3. rewrite H2. reflexivity.
Qed.

(** * The floor at 0 and the percentages *)

(** ** Scores stay non-negative *)

Lemma foldM_snoc {A S} (f : S -> A -> Console S) l a s :
  fst (foldM f (l ++ [a]) s) = fst (f (fst (foldM f l s)) a).
Proof.
  rewrite !foldM_fst, fold_left_app. reflexivity.
Qed.

Lemma applyScoringRule_hypotheses signals e rule :
  hypotheses (fst (applyScoringRule signals e rule)) =
  hypotheses (if matches signals (sr_if rule)
              then fold_left applyScore (sr_then rule) e else e).
Proof.
  unfold applyScoringRule, matches. rewrite bind_fst.
  destruct (fst (evaluateConditions (sr_if rule) signals)); reflexivity.
Qed.


(** ** The percentage in binary64 *)

Lemma pow2_pos e : 0 < fst (Double.pow2 e) /\ 0 < snd (Double.pow2 e).
Proof.
  unfold Double.pow2. destruct (0 <=? e) eqn:E; cbn [fst snd]; split; try lia;
    try apply Z.leb_le in E; try apply Z.leb_gt in E;
    apply Z.pow_pos_nonneg; lia.
Qed.

(** [pow2 (x - y)] is [2^x / 2^y]. *)
Lemma pow2_diff x y :
  0 <= x -> 0 <= y ->
  fst (Double.pow2 (x - y)) * 2 ^ y = snd (Double.pow2 (x - y)) * 2 ^ x.
Proof.
  intros Hx Hy. unfold Double.pow2.
  destruct (0 <=? x - y) eqn:E; cbn [fst snd].
  - apply Z.leb_le in E. rewrite <- Z.pow_add_r by lia.
    replace (x - y + y) with x by lia. lia.
  - apply Z.leb_gt in E. rewrite <- Z.pow_add_r by lia.
    replace (- (x - y) + x) with y by lia. lia.
Qed.

(** [pow2 (e + 52)] is [2^52 * pow2 e]. *)
Lemma pow2_52 e :
  fst (Double.pow2 (e + 52)) * snd (Double.pow2 e)
  = 2 ^ 52 * fst (Double.pow2 e) * snd (Double.pow2 (e + 52)).
Proof.
  unfold Double.pow2.
  destruct (0 <=? e) eqn:E, (0 <=? e + 52) eqn:E'; cbn [fst snd];
    try apply Z.leb_le in E; try apply Z.leb_gt in E;
    try apply Z.leb_le in E'; try apply Z.leb_gt in E'; try lia.
  - rewrite Z.pow_add_r by lia. lia.
  - rewrite <- Z.pow_add_r by lia. replace (e + 52 + - e) with 52 by lia. lia.
  - rewrite Z.mul_1_r, <- Z.pow_add_r by lia.
    replace (52 + - (e + 52)) with (- e) by lia. lia.
Qed.

(** [pow2 (e + 1)] is [2 * pow2 e]. *)
Lemma pow2_succ e :
  fst (Double.pow2 (e + 1)) * snd (Double.pow2 e)
  = 2 * fst (Double.pow2 e) * snd (Double.pow2 (e + 1)).
Proof.
  unfold Double.pow2.
  destruct (0 <=? e) eqn:E, (0 <=? e + 1) eqn:E'; cbn [fst snd];
    try apply Z.leb_le in E; try apply Z.leb_gt in E;
    try apply Z.leb_le in E'; try apply Z.leb_gt in E'; try lia.
  - rewrite Z.pow_add_r by lia. lia.
  - assert (e = -1) by lia. subst e. reflexivity.
  - replace (- e) with (- (e + 1) + 1) by lia.
    rewrite Z.pow_add_r by lia. lia.
Qed.

(** The exponent of [num / den] lies between [Z.log2 num - Z.log2 den - 1]
    and [Z.log2 num - Z.log2 den]. *)
Lemma log2_quotient num den :
  0 < num -> 0 < den ->
  let k := Z.log2 num - Z.log2 den in
  den * fst (Double.pow2 (k - 1)) <= num * snd (Double.pow2 (k - 1)) /\
  num * snd (Double.pow2 (k + 1)) < den * fst (Double.pow2 (k + 1)).
Proof.
  intros Hn Hd k. unfold k.
  pose proof (Z.log2_nonneg num) as Ha. pose proof (Z.log2_nonneg den) as Hb.
  destruct (Z.log2_spec num Hn) as [A1 A2].
  destruct (Z.log2_spec den Hd) as [B1 B2].
  replace (Z.succ (Z.log2 num)) with (Z.log2 num + 1) in A2 by lia.
  replace (Z.succ (Z.log2 den)) with (Z.log2 den + 1) in B2 by lia.
  split.
  - replace (Z.log2 num - Z.log2 den - 1)
      with (Z.log2 num - (Z.log2 den + 1)) by lia.
    pose proof (pow2_diff (Z.log2 num) (Z.log2 den + 1) Ha ltac:(lia)) as D.
    pose proof (pow2_pos (Z.log2 num - (Z.log2 den + 1))) as [Hp Hq].
    set (p := fst _) in *. set (q := snd _) in *.
    set (X := 2 ^ Z.log2 num) in *. set (Y := 2 ^ (Z.log2 den + 1)) in *.
    assert (den * p <= Y * p) by nia.
    assert (q * X <= q * num) by nia.
    lia.
  - replace (Z.log2 num - Z.log2 den + 1)
      with (Z.log2 num + 1 - Z.log2 den) by lia.
    pose proof (pow2_diff (Z.log2 num + 1) (Z.log2 den) ltac:(lia) Hb) as D.
    pose proof (pow2_pos (Z.log2 num + 1 - Z.log2 den)) as [Hp Hq].
    set (p := fst _) in *. set (q := snd _) in *.
    set (X := 2 ^ (Z.log2 num + 1)) in *. set (Y := 2 ^ Z.log2 den) in *.
    assert (Y * p <= den * p) by nia.
    assert (q * num < q * X) by nia.
    lia.
Qed.

(** The significand of a quotient has its 53 bits: with [e] the exponent
    of the last bit, [2^52 <= (num / den) / 2^e < 2^53]. *)
Lemma exponent_spec num den :
  0 < num -> 0 < den ->
  let e := Double.exponent num den in
  2 ^ 52 * (den * fst (Double.pow2 e)) <= num * snd (Double.pow2 e)
  < 2 ^ 53 * (den * fst (Double.pow2 e)).
Proof.
  intros Hn Hd e.
  destruct (log2_quotient num den Hn Hd) as [Hlow Hhigh]. cbv zeta in Hlow, Hhigh.
  assert (HL : den * fst (Double.pow2 (e + 52)) <= num * snd (Double.pow2 (e + 52)) /\
               num * snd (Double.pow2 (e + 52 + 1))
               < den * fst (Double.pow2 (e + 52 + 1))).
  { unfold e, Double.exponent.
    destruct (den * fst (Double.pow2 (Z.log2 num - Z.log2 den))
              <=? num * snd (Double.pow2 (Z.log2 num - Z.log2 den))) eqn:T.
    - apply Z.leb_le in T.
      replace (Z.log2 num - Z.log2 den - 52 + 52) with (Z.log2 num - Z.log2 den) by lia.
      split; [exact T|exact Hhigh].
    - apply Z.leb_gt in T.
      replace (Z.log2 num - Z.log2 den - 1 - 52 + 52)
        with (Z.log2 num - Z.log2 den - 1) by lia.
      replace (Z.log2 num - Z.log2 den - 1 + 1) with (Z.log2 num - Z.log2 den) by lia.
      split; [exact Hlow|exact T]. }
  destruct HL as [HL HH].
  pose proof (pow2_52 e) as S.
  pose proof (pow2_52 (e + 1)) as S'.
  replace (e + 1 + 52) with (e + 52 + 1) in S' by lia.
  pose proof (pow2_succ e) as S1.
  pose proof (pow2_pos e) as [Hp Hq].
  pose proof (pow2_pos (e + 52)) as [Hp' Hq'].
  pose proof (pow2_pos (e + 52 + 1)) as [Hp'' Hq''].
  pose proof (pow2_pos (e + 1)) as [Hp1 Hq1].
  set (p := fst (Double.pow2 e)) in *. set (q := snd (Double.pow2 e)) in *.
  set (p' := fst (Double.pow2 (e + 52))) in *.
  set (q' := snd (Double.pow2 (e + 52))) in *.
  set (p'' := fst (Double.pow2 (e + 52 + 1))) in *.
  set (q'' := snd (Double.pow2 (e + 52 + 1))) in *.
  set (p1 := fst (Double.pow2 (e + 1))) in *.
  set (q1 := snd (Double.pow2 (e + 1))) in *.
  split.
  - apply Z.mul_le_mono_pos_r with (p := q'); [exact Hq'|].
    assert (E1 : 2 ^ 52 * (den * p) * q' = den * (p' * q)) by (rewrite S; ring).
    rewrite E1.
    assert (den * p' * q <= num * q' * q) by (apply Z.mul_le_mono_nonneg_r; lia).
    lia.
  - apply Z.mul_lt_mono_pos_r with (p := q'' * q1); [nia|].
    assert (E53 : 2 ^ 53 = 2 ^ 52 * 2) by reflexivity.
    rewrite E53.
    assert (E2 : 2 ^ 52 * 2 * (den * p) * (q'' * q1)
                 = den * (p'' * q1) * q).
    { transitivity (den * (2 ^ 52 * (2 * p * q1) * q'')); [ring|].
      rewrite <- S1.
      transitivity (den * ((2 ^ 52 * p1 * q'') * q)); [ring|].
      rewrite <- S'. ring. }
    rewrite E2.
    assert (num * q'' * (q1 * q) < den * p'' * (q1 * q))
      by (apply Z.mul_lt_mono_pos_r; [nia|exact HH]).
    lia.
Qed.

Lemma nearest_even_spec num den :
  0 < den ->
  - den <= 2 * (Double.nearest_even num den * den - num) <= den.
Proof.
  intros Hd. unfold Double.nearest_even.
  pose proof (Z.div_mod num den ltac:(lia)) as E.
  pose proof (Z.mod_pos_bound num den Hd) as B.
  set (q := num / den) in *. set (r := num mod den) in *.
  destruct (2 * r <? den) eqn:T1; [apply Z.ltb_lt in T1; nia|].
  apply Z.ltb_ge in T1.
  destruct (den <? 2 * r) eqn:T2; [apply Z.ltb_lt in T2; nia|].
  apply Z.ltb_ge in T2.
  destruct (Z.even q); nia.
Qed.

(** [Double.round] returns a double: a significand of 53 bits (or the
    next power of two) scaled by a power of two, at most half a unit of
    the last bit away from the exact value. *)
Lemma round_is_double num den :
  0 < num -> 0 < den ->
  exists m e,
    Double.round num den =
      (m * fst (Double.pow2 e), snd (Double.pow2 e)) /\
    2 ^ 52 <= m <= 2 ^ 53 /\
    - (den * fst (Double.pow2 e))
    <= 2 * (m * (den * fst (Double.pow2 e)) - num * snd (Double.pow2 e))
    <= den * fst (Double.pow2 e).
Proof.
  intros Hn Hd. unfold Double.round.
  destruct (num =? 0) eqn:Z0; [apply Z.eqb_eq in Z0; lia|].
  rewrite Z.sgn_pos, Z.abs_eq by lia.
  pose proof (exponent_spec num den Hn Hd) as R. cbv zeta in R.
  pose proof (pow2_pos (Double.exponent num den)) as [Hp Hq].
  exists (Double.nearest_even
            (num * snd (Double.pow2 (Double.exponent num den)))
            (den * fst (Double.pow2 (Double.exponent num den)))),
         (Double.exponent num den).
  set (p := fst _) in *. set (q := snd _) in *.
  pose proof (nearest_even_spec (num * q) (den * p) ltac:(nia)) as N.
  set (m := Double.nearest_even _ _) in *.
  assert (P53 : 2 ^ 53 = 2 * 2 ^ 52) by reflexivity.
  assert (P : 0 < 2 ^ 52) by reflexivity.
  rewrite P53 in *. set (K := 2 ^ 52) in *.
  assert (HB : 0 < den * p) by nia.
  set (B := den * p) in *. set (A := num * q) in *.
  split; [f_equal; ring|]. split; [|exact N].
  split.
  - assert (2 * (K * B) <= 2 * (m * B) + B) by lia.
    assert ((2 * K - 1) * B < (2 * m + 1) * B) by nia.
    assert (2 * K - 1 < 2 * m + 1) by (apply Z.mul_lt_mono_pos_r with (p := B); lia).
    lia.
  - assert (2 * (m * B) - B < 2 * (2 * K * B)) by lia.
    assert ((2 * m - 1) * B < (4 * K) * B) by nia.
    assert (2 * m - 1 < 4 * K) by (apply Z.mul_lt_mono_pos_r with (p := B); lia).
    lia.
Qed.

(** The relative error of a rounding is at most [2^-53]. *)
Lemma round_spec num den :
  0 <= num -> 0 < den ->
  0 <= fst (Double.round num den) /\ 0 < snd (Double.round num den) /\
  2 ^ 53 * Z.abs (fst (Double.round num den) * den - num * snd (Double.round num den))
  <= num * snd (Double.round num den).
Proof.
  intros Hn Hd. unfold Double.round.
  destruct (num =? 0) eqn:Z0.
  - apply Z.eqb_eq in Z0. subst num. cbn [fst snd]. lia.
  - apply Z.eqb_neq in Z0. cbn [fst snd].
    rewrite Z.sgn_pos, Z.abs_eq by lia.
    pose proof (exponent_spec num den ltac:(lia) Hd) as [R _].
    pose proof (pow2_pos (Double.exponent num den)) as [Hp Hq].
    set (p := fst _) in *. set (q := snd _) in *.
    pose proof (nearest_even_spec (num * q) (den * p) ltac:(nia)) as N.
    set (m := Double.nearest_even _ _) in *.
    assert (P53 : 2 ^ 53 = 2 * 2 ^ 52) by reflexivity.
    assert (P : 0 < 2 ^ 52) by reflexivity.
    set (K := 2 ^ 52) in *.
    assert (Hm : 0 <= m) by nia.
    split; [nia|]. split; [lia|].
    rewrite P53.
    replace (1 * m * p * den - num * q) with (m * (den * p) - num * q) by ring.
    set (d := m * (den * p) - num * q) in *.
    assert (2 * Z.abs d <= den * p) by lia.
    nia.
Qed.

Lemma div_pos s t : 0 < t -> Double.div s t = Double.round s t.
Proof.
  intros Ht. unfold Double.div. rewrite Z.sgn_pos, Z.abs_eq, Z.mul_1_r by lia.
  reflexivity.
Qed.

Lemma scale_le a b c : 0 < c -> a * c <= b * c -> a <= b.
Proof. intros Hc H. apply Z.mul_le_mono_pos_r with (p := c); assumption. Qed.

(** The double [(s / t) * 100] is within [2^-51] of the exact value,
    relatively: two roundings of at most [2^-53] each. *)
Lemma times100_spec s t :
  0 <= s -> 0 < t ->
  let y := Double.mul (Double.div s t) 100 in
  0 <= fst y /\ 0 < snd y /\
  2 ^ 51 * Z.abs (fst y * t - 100 * s * snd y) <= 100 * s * snd y.
Proof.
  intros Hs Ht y. unfold y, Double.mul. rewrite div_pos by exact Ht.
  destruct (round_spec s t Hs Ht) as (HN1 & HD1 & A).
  set (N1 := fst (Double.round s t)) in *.
  set (D1 := snd (Double.round s t)) in *.
  destruct (round_spec (N1 * 100) D1 ltac:(lia) HD1) as (HN2 & HD2 & B).
  set (N2 := fst (Double.round (N1 * 100) D1)) in *.
  set (D2 := snd (Double.round (N1 * 100) D1)) in *.
  split; [exact HN2|]. split; [exact HD2|].
  assert (P53 : 2 ^ 53 = 4 * 2 ^ 51) by reflexivity.
  assert (P : 0 < 2 ^ 51) by reflexivity.
  rewrite P53 in A, B. set (K := 2 ^ 51) in *.
  apply scale_le with (c := D1); [exact HD1|].
  set (U := s * D1 * D2). set (V := N1 * t * D2). set (W := N2 * t * D1).
  assert (A' : 4 * K * Z.abs (V - U) <= U).
  { unfold U, V.
    replace (N1 * t * D2 - s * D1 * D2) with ((N1 * t - s * D1) * D2) by ring.
    rewrite Z.abs_mul, (Z.abs_eq D2) by lia.
    replace (4 * K * (Z.abs (N1 * t - s * D1) * D2))
      with (4 * K * Z.abs (N1 * t - s * D1) * D2) by ring.
    apply Z.mul_le_mono_nonneg_r; lia. }
  assert (B' : 4 * K * Z.abs (W - 100 * V) <= 100 * V).
  { unfold W, V.
    replace (N2 * t * D1 - 100 * (N1 * t * D2)) with ((N2 * D1 - N1 * 100 * D2) * t) by ring.
    rewrite Z.abs_mul, (Z.abs_eq t) by lia.
    replace (4 * K * (Z.abs (N2 * D1 - N1 * 100 * D2) * t))
      with (4 * K * Z.abs (N2 * D1 - N1 * 100 * D2) * t) by ring.
    replace (100 * (N1 * t * D2)) with (N1 * 100 * D2 * t) by ring.
    apply Z.mul_le_mono_nonneg_r; lia. }
  assert (HU : 0 <= U) by (unfold U; nia).
  replace (K * Z.abs (N2 * t - 100 * s * D2) * D1) with (K * Z.abs (W - 100 * U)).
  2:{ unfold W, U.
      replace (N2 * t * D1 - 100 * (s * D1 * D2)) with ((N2 * t - 100 * s * D2) * D1) by ring.
      rewrite Z.abs_mul, (Z.abs_eq D1) by lia. ring. }
  replace (100 * s * D2 * D1) with (100 * U) by (unfold U; ring).
  lia.
Qed.

(** The percentage of a share is at most 1 away from the exact
    [score / total * 100]. *)
Lemma percent_close s t :
  0 <= s <= t -> 0 < t ->
  t * Double.percent s t - t <= 100 * s <= t * Double.percent s t + t.
Proof.
  intros Hs Ht. unfold Double.percent, Double.Math_round.
  destruct (times100_spec s t ltac:(lia) Ht) as (HN & HD & A).
  set (y := Double.mul (Double.div s t) 100) in *.
  pose proof (Math_round_nearest (fst y) (snd y) HD) as R.
  set (c := JS.Math_round (fst y) (snd y)) in *.
  set (N := fst y) in *. set (D := snd y) in *.
  assert (P : 0 < 2 ^ 51) by reflexivity.
  assert (P' : 2 ^ 51 = 2251799813685248) by reflexivity.
  set (K := 2 ^ 51) in *.
  assert (HsD : s * D <= t * D) by (apply Z.mul_le_mono_nonneg_r; lia).
  assert (R1 : 2 * D * c * t - D * t <= 2 * N * t).
  { replace (2 * D * c * t - D * t) with ((2 * D * c - D) * t) by ring.
    apply Z.mul_le_mono_nonneg_r; lia. }
  assert (R2 : 2 * N * t <= (2 * D * c + D) * t).
  { apply Z.mul_le_mono_nonneg_r; lia. }
  split; apply scale_le with (c := D); try exact HD.
  - replace ((t * c - t) * D) with (D * c * t - D * t) by ring.
    replace (100 * s * D) with (100 * (s * D)) by ring.
    set (X := N * t) in *. set (Y := s * D) in *. set (T := t * D) in *.
    replace (D * t) with T in * by (unfold T; ring).
    replace (D * c * t) with (c * T) by (unfold T; ring).
    replace (2 * D * c * t) with (2 * (c * T)) in R1 by (unfold T; ring).
    replace (100 * s * D) with (100 * Y) in A by (unfold Y; ring).
    lia.
  - replace ((t * c + t) * D) with (D * c * t + D * t) by ring.
    replace (100 * s * D) with (100 * (s * D)) by ring.
    set (X := N * t) in *. set (Y := s * D) in *. set (T := t * D) in *.
    replace (D * t) with T in * by (unfold T; ring).
    replace (D * c * t) with (c * T) by (unfold T; ring).
    replace ((2 * D * c + D) * t) with (2 * (c * T) + T) in R2 by (unfold T; ring).
    replace (100 * s * D) with (100 * Y) in A by (unfold Y; ring).
    lia.
Qed.

(** ** The result with the percentages in binary64 *)

Lemma analyze_binary64_fst e signals :
  fst (analyze_binary64 e signals) =
  let e2 := fst (applyScoringRules signals
                   (fst (applyEliminationRules signals (reset e)))) in
  (calculateResult_binary64 e2, e2).
Proof. unfold analyze_binary64. cbv zeta. rewrite !bind_fst. reflexivity. Qed.

(** The two analyses run the same stages: they leave the same instance
    and print the same, and their results differ in the percentages and
    in what is derived from them only. *)
Lemma analyze_binary64_stages e signals :
  snd (fst (analyze_binary64 e signals)) = snd (fst (analyze e signals)) /\
  snd (analyze_binary64 e signals) = snd (analyze e signals) /\
  (totalScore
     (activeHypotheses (hypotheses (snd (fst (analyze e signals))))) = 0 ->
   fst (fst (analyze_binary64 e signals)) = fst (fst (analyze e signals))) /\
  forall r r',
    fst (fst (analyze_binary64 e signals)) = Some r ->
    fst (fst (analyze e signals)) = Some r' ->
    evidence r = evidence r' /\
    eliminated_causes r = eliminated_causes r' /\
    all_scores r = all_scores r' /\
    applied_rules r = applied_rules r'.
Proof.
  rewrite analyze_binary64_fst, analyze_fst. cbv zeta. cbn [fst snd].
  set (e2 := fst (applyScoringRules signals _)).
  split; [reflexivity|]. split.
  { unfold analyze_binary64, analyze. cbv zeta.
    rewrite bind_snd; cbv beta. rewrite bind_snd; cbv beta.
    symmetry. rewrite bind_snd; cbv beta. rewrite bind_snd; cbv beta.
    reflexivity. }
  split.
  { intros Hz. unfold calculateResult_binary64, calculateResult.
    rewrite Hz. reflexivity. }
  intros r r' Hr Hr'.
  destruct (calculateResult_fields _ _ Hr') as (-> & -> & -> & ->).
  unfold calculateResult_binary64 in Hr.
  destruct (totalScore _ =? 0); [injection Hr as <-; auto|].
  destruct (sort_by_confidence _); [discriminate|].
  injection Hr as <-. auto.
Qed.

Lemma calculateResult_binary64_ranked e :
  let active := activeHypotheses (hypotheses e) in
  let total := totalScore active in
  total <> 0 ->
  exists r primary rest,
    calculateResult_binary64 e = Some r /\
    sort_by_confidence (List.map (normalize_binary64 total) active)
    = primary :: rest /\
    all_hypotheses r = Some (primary :: rest) /\
    primary_cause r = name primary /\
    confidence_percent r = n_confidence_percent primary /\
    raw_score r = Some (n_score primary).
Proof.
  intros active total Htotal. unfold calculateResult_binary64.
  fold active. fold total.
  destruct (total =? 0) eqn:Hz; [apply Z.eqb_eq in Hz; contradiction|].
  destruct (sort_by_confidence (List.map (normalize_binary64 total) active))
    as [|primary rest] eqn:Hsort.
  - exfalso. destruct active as [|h active']; [apply Htotal; reflexivity|].
    simpl in Hsort.
    destruct (insert_by_confidence_cons (normalize_binary64 total h)
                (sort_by_confidence (List.map (normalize_binary64 total) active')))
      as [b [l' Hins]].
    congruence.
  - eexists _, primary, rest. split; [reflexivity|]. simpl. auto.
Qed.

Lemma normalize_binary64_names total active :
  List.map (fun h => (name h, n_score h))
    (List.map (normalize_binary64 total) active) = active.
Proof.
  rewrite List.map_map. simpl.
  induction active as [|[n s] active IH]; simpl; [reflexivity|].
  rewrite IH. reflexivity.
Qed.

Lemma sum_percent_binary64 total active :
  0 < total ->
  Forall (fun h : string * Z => 0 <= snd h <= total) active ->
  let l := List.map (normalize_binary64 total) active in
  total * sum_percent l - Z.of_nat (length l) * total
  <= 100 * totalScore active
  <= total * sum_percent l + Z.of_nat (length l) * total.
Proof.
  intros Htotal. induction 1 as [|h active Hh Hactive IH];
    [simpl; unfold totalScore; simpl; lia|].
  cbv zeta in *. rewrite totalScore_cons.
  change (List.map (normalize_binary64 total) (h :: active))
    with (normalize_binary64 total h :: List.map (normalize_binary64 total) active).
  change (sum_percent
            (normalize_binary64 total h :: List.map (normalize_binary64 total) active))
    with (Double.percent (snd h) total
          + sum_percent (List.map (normalize_binary64 total) active)).
  rewrite length_cons, Nat2Z.inj_succ.
  pose proof (percent_close (snd h) total Hh Htotal) as Hc.
  lia.
Qed.


(** The scores 23 and 17: [(23 / 40) * 100] is the double
    57.49999999999999, which [Math.round] takes to 57, where the exact
    57.5 would go to 58; [(17 / 40) * 100] is 42.5 exactly. *)
Example binary64_scenario :
  Double.percent 23 40 = 57 /\
  JS.Math_round (23 * 100) 40 = 58 /\
  (fst (fst (analyze_binary64 (new (no_rules [("dns", 23); ("network", 17)])) ∅))
     ≫= all_hypotheses) =
  Some [ {| name := "dns"; n_score := 23; n_confidence_percent := 57 |};
         {| name := "network"; n_score := 17; n_confidence_percent := 43 |} ] /\
  Double.percent 29 200 = 14 /\
  Double.percent 1 8 = 13 /\
  Double.percent 1 3 = 33 /\
  Double.percent 7 7 = 100.
Proof. repeat split; vm_compute; reflexivity. Qed.

(** * The further properties at sample inputs *)

Lemma ranked_are_the_survivors_witness :
  NoDup (Obj.keys (rs_hypotheses (this_rules (new dns_rules)))) /\
  totalScore
    (activeHypotheses
       (hypotheses (snd (fst (analyze (new dns_rules) dns_signals))))) <> 0 /\
  exists r,
    fst (fst (analyze (new dns_rules) dns_signals)) = Some r /\
    ~ In (primary_cause r) (eliminated_causes r).
Proof.
  assert (H1 : NoDup (Obj.keys (rs_hypotheses (this_rules (new dns_rules)))))
    by (apply (bool_decide_unpack _); vm_compute; exact I).
  assert (H2 : totalScore
                 (activeHypotheses
                    (hypotheses (snd (fst (analyze (new dns_rules) dns_signals)))))
               <> 0) by (vm_compute; discriminate).
  split; [exact H1|]. split; [exact H2|].
  destruct (ranked_are_the_survivors (new dns_rules) dns_signals H1 H2)
    as (r & ranked & Hr & _ & _ & Hp).
  exists r. auto.
Defined.


Lemma single_survivor_witness :
  activeHypotheses
    (hypotheses (snd (fst (analyze (new revive_rules) revive_signals))))
  = [("dns", 15)] /\
  15 <> 0 /\
  exists r,
    fst (fst (analyze (new revive_rules) revive_signals)) = Some r /\
    primary_cause r = "dns" /\ confidence_percent r = 100.
Proof.
  assert (H1 : activeHypotheses
                 (hypotheses
                    (snd (fst (analyze (new revive_rules) revive_signals))))
               = [("dns", 15)]) by (vm_compute; reflexivity).
  assert (H2 : 15 <> 0) by lia.
  split; [exact H1|]. split; [exact H2|].
  destruct (single_survivor (new revive_rules) revive_signals "dns" 15 H1 H2)
    as (r & Hr & Hc & Hp & _).
  exists r. auto.
Defined.


Lemma trigger_order_witness :
  Permutation
    [("affected_users", CString "multiple"); ("app_specific", CBoolean true)]
    [("app_specific", CBoolean true); ("affected_users", CString "multiple")] /\
  matches dns_signals
    [("affected_users", CString "multiple"); ("app_specific", CBoolean true)] =
  matches dns_signals
    [("app_specific", CBoolean true); ("affected_users", CString "multiple")].
Proof.
  assert (H : Permutation
                [("affected_users", CString "multiple");
                 ("app_specific", CBoolean true)]
                [("app_specific", CBoolean true);
                 ("affected_users", CString "multiple")]) by apply perm_swap.
  split; [exact H|]. exact (trigger_order dns_signals _ _ H).
Defined.

Lemma operators_order_witness :
  Permutation [(">", 200); ("<", 500)] [("<", 500); (">", 200)] /\
  matches dns_signals [("dns_latency_ms", COperators [(">", 200); ("<", 500)])] =
  matches dns_signals [("dns_latency_ms", COperators [("<", 500); (">", 200)])].
Proof.
  assert (H : Permutation [(">", 200); ("<", 500)] [("<", 500); (">", 200)])
    by apply perm_swap.
  split; [exact H|].
  exact (operators_order dns_signals "dns_latency_ms" _ _ [] H).
Defined.

Lemma warnings_are_unknown_operators_witness :
  forallb recognised
    (flat_map operators_of (triggers_of (this_rules (new dns_rules)))) = true /\
  snd (analyze (new dns_rules) dns_signals) = [].
Proof.
  assert (H : forallb recognised
                (flat_map operators_of (triggers_of (this_rules (new dns_rules))))
              = true) by reflexivity.
  split; [exact H|].
  exact (proj2 (proj2 (warnings_are_unknown_operators (new dns_rules) dns_signals)) H).
Defined.

Lemma no_signals_witness :
  Forall (fun trigger => trigger <> []) (triggers_of (this_rules (new dns_rules))) /\
  Forall (fun trigger =>
            Forall (fun key => ~ In key Object_prototype) (List.map fst trigger))
    (triggers_of (this_rules (new dns_rules))) /\
  exists r,
    fst (fst (analyze (new dns_rules) ∅)) = Some r /\
    applied_rules r = [] /\ eliminated_causes r = [].
Proof.
  assert (H : Forall (fun trigger : Trigger => trigger <> [])
                (triggers_of (this_rules (new dns_rules))))
    by (repeat constructor; discriminate).
  assert (H' : Forall (fun trigger : Trigger =>
                         Forall (fun key => ~ In key Object_prototype)
                           (List.map fst trigger))
                 (triggers_of (this_rules (new dns_rules)))).
  { repeat constructor; simpl; intros Hin;
      repeat (destruct Hin as [Hin|Hin]; [discriminate Hin|]); exact Hin. }
  split; [exact H|]. split; [exact H'|].
  destruct (no_signals (new dns_rules) H H') as (r & Hr & _ & Hc & Ha & _).
  exists r. auto.
Defined.

Lemma extractSignals_typed_witness :
  dns_signals !! "vpn_in_use" = Some (VBool true) /\
  Obj.get "vpn_in_use" signal_kinds = Some (kind_of (VBool true)).
Proof.
  assert (H : dns_signals !! "vpn_in_use" = Some (VBool true))
    by (vm_compute; reflexivity).
  split; [exact H|].
  exact (proj1 (proj1 (extractSignals_typed parseFloat_integer dns_case)
                  "vpn_in_use" (VBool true) H)).
Defined.

Lemma mistyped_condition_never_matches_witness :
  In ("memory_pressure", CString "true") [("memory_pressure", CString "true")] /\
  matches dns_signals [("memory_pressure", CString "true")] = false.
Proof.
  assert (H : In ("memory_pressure", CString "true")
                [("memory_pressure", CString "true")]) by (left; reflexivity).
  split; [exact H|].
  apply (mistyped_condition_never_matches parseFloat_integer dns_case _ _ _ H).
  right. exists (VStr "true"). split; [reflexivity|]. simpl. discriminate.
Defined.

Lemma display_tables_agree_witness :
  Obj.get "gpu" names = None /\ ~ In "gpu" Object_prototype /\
  formatCauseName "gpu" = "gpu".
Proof.
  assert (H : Obj.get "gpu" names = None) by reflexivity.
  assert (H' : ~ In "gpu" Object_prototype).
  { simpl. intros Hin.
    repeat (destruct Hin as [Hin|Hin]; [discriminate Hin|]). exact Hin. }
  split; [exact H|]. split; [exact H'|].
  exact (proj1 (proj2 (proj2 (display_tables_agree "gpu")) H H')).
Defined.

Lemma unknown_verdict_displayed_witness :
  totalScore
    (activeHypotheses
       (hypotheses
          (snd (fst (analyze (new (no_rules [("dns", 0); ("cpu", 0)])) ∅))))) = 0 /\
  exists r,
    fst (fst (analyze (new (no_rules [("dns", 0); ("cpu", 0)])) ∅)) = Some r /\
    bottleneck (mapEngineResultToLegacy r) = "Insufficient diagnostic data".
Proof.
  assert (H : totalScore
                (activeHypotheses
                   (hypotheses
                      (snd (fst (analyze (new (no_rules [("dns", 0); ("cpu", 0)]))
                                   ∅))))) = 0) by (vm_compute; reflexivity).
  split; [exact H|].
  destruct (unknown_verdict_displayed
              (new (no_rules [("dns", 0); ("cpu", 0)])) ∅ H) as (r & Hr & Hb & _).
  exists r. auto.
Defined.


Lemma legacy_needs_throughput_witness :
  In (bottleneck (analyzeBottleneckLegacy parseFloat_integer slow_server_case))
    ["Server response time delays"; "Intermittent network instability";
     "Specific resource or endpoint issue"; "Network infrastructure issues";
     "Insufficient diagnostic data"] /\
  exists text throughput,
    Obj.get "throughput_mbps" slow_server_case = Some text /\
    parseFloat_integer text = Some throughput /\ 5 <= throughput.
Proof.
  assert (H : In (bottleneck
                    (analyzeBottleneckLegacy parseFloat_integer slow_server_case))
                ["Server response time delays"; "Intermittent network instability";
                 "Specific resource or endpoint issue";
                 "Network infrastructure issues"; "Insufficient diagnostic data"])
    by (vm_compute; left; reflexivity).
  split; [exact H|].
  exact (legacy_needs_throughput parseFloat_integer slow_server_case H).
Defined.


Lemma unused_signals_ignored_witness :
  agree_on (triggers_of (this_rules (new tie_rules)))
    tie_signals (<["hostname" := VStr "web-1"]> tie_signals) /\
  analyze (new tie_rules) tie_signals =
  analyze (new tie_rules) (<["hostname" := VStr "web-1"]> tie_signals).
Proof.
  assert (H : agree_on (triggers_of (this_rules (new tie_rules)))
                tie_signals (<["hostname" := VStr "web-1"]> tie_signals)).
  { intros trigger key [<-|[]] [<-|[]]. vm_compute. reflexivity. }
  split; [exact H|].
  exact (unused_signals_ignored (new tie_rules) tie_signals _ H).
Defined.

Lemma eliminated_causes_exact_witness :
  (forall rule h,
     In rule (elimination_rules (this_rules (new revive_rules))) ->
     In h (er_eliminate rule) ->
     In h (Obj.keys (rs_hypotheses (this_rules (new revive_rules)))) \/
     ~ In h Object_prototype) /\
  exists r,
    fst (fst (analyze (new revive_rules) revive_signals)) = Some r /\
    NoDup (eliminated_causes r).
Proof.
  assert (H : forall rule h,
            In rule (elimination_rules (this_rules (new revive_rules))) ->
            In h (er_eliminate rule) ->
            In h (Obj.keys (rs_hypotheses (this_rules (new revive_rules)))) \/
            ~ In h Object_prototype).
  { intros rule h [<-|[]] [<-|[]]. left. simpl. auto. }
  split; [exact H|].
  destruct (eliminated_causes_exact (new revive_rules) revive_signals H)
    as (r & Hr & Hnodup & _).
  exists r. auto.
Defined.


